(** * Post page of the blog: reading time, edited flag and neighbour posts

    Shallow embedding of the post page (two revisions of it: one with
    preview support, one without) and of the library calls the page
    makes: [String.prototype.trim] / [split], [RichText.asText] of
    prismic-dom, [compareAsc] of date-fns, and the query endpoint of the
    Prismic client ([getByUID], [query]).

    Numbers that the page only ever uses as counts are integers ([Z]);
    the one division, [wordsCount / 200], is carried out in [Q], where it
    is exact, before [Math.ceil] is applied. *)

From Stdlib Require Import ZArith QArith Qround List String Ascii Bool Lia.
From Stdlib Require Import Sorting.Sorted Sorting.Permutation.
Import ListNotations.

Local Open Scope Z_scope.

(* ================================================================== *)
(** ** JavaScript strings and the text helpers used by the page *)

Module JsString.

(** A JavaScript string is a sequence of UTF-16 code units. *)
Definition code_unit := N.
Definition t := list code_unit.

(** Code units of a Rocq string (one unit per byte; enough for the
    ASCII and Latin-1 sample texts below). *)
Fixpoint of_string (s : string) : t :=
  match s with
  | EmptyString => []
  | String a r => N_of_ascii a :: of_string r
  end.

(** [WhiteSpace] and [LineTerminator] of ECMAScript: the characters
    matched by the regular expression class [\s] and stripped by
    [trim]. *)
Definition is_white_space (c : code_unit) : bool :=
  ( (9 <=? c) && (c <=? 13)            (* TAB LF VT FF CR *)
    || (c =? 32)                         (* SP *)
    || (c =? 160)                        (* NBSP *)
    || (c =? 5760)                       (* U+1680 *)
    || (8192 <=? c) && (c <=? 8202)      (* U+2000 .. U+200A *)
    || (c =? 8232) || (c =? 8233)        (* LS PS *)
    || (c =? 8239)                       (* U+202F *)
    || (c =? 8287)                       (* U+205F *)
    || (c =? 12288)                      (* U+3000 *)
    || (c =? 65279) )%N.                 (* U+FEFF *)

Fixpoint trimStart (s : t) : t :=
  match s with
  | [] => []
  | c :: r => if is_white_space c then trimStart r else s
  end.

Definition trimEnd (s : t) : t := rev (trimStart (rev s)).

(** [s.trim()] *)
Definition trim (s : t) : t := trimEnd (trimStart s).

(** [s.split(/\s+/)].  The scanner follows the split algorithm of the
    language: it walks the string, closes the current piece at the start
    of every match of [\s+] (a maximal run of white space) and resumes
    after the run; the piece that is open when the string ends is always
    pushed, so the empty string gives one empty piece, and a string that
    starts or ends with white space gives an empty first or last
    piece. [piece] holds the open piece in reverse. *)
Fixpoint split_piece (piece : t) (s : t) {struct s} : list t :=
  match s with
  | [] => [rev piece]
  | c :: r =>
      if is_white_space c then rev piece :: split_run r
      else split_piece (c :: piece) r
  end
with split_run (s : t) {struct s} : list t :=
  match s with
  | [] => [[]]
  | c :: r =>
      if is_white_space c then split_run r
      else split_piece [c] r
  end.

Definition split_ws (s : t) : list t := split_piece [] s.

(** [parts.join(sep)] *)
Fixpoint join (sep : t) (parts : list t) : t :=
  match parts with
  | [] => []
  | [p] => p
  | p :: rest => p ++ sep ++ join sep rest
  end.

End JsString.

(* ================================================================== *)
(** ** Documents *)

(** A publication date as the API delivers it: an ISO-8601 time stamp,
    kept as the instant it denotes in milliseconds since the epoch.
    The fields of a document are [string | null]; [None] is [null]. *)
Definition timestamp := Z.

Record Span := { text : JsString.t }.

Record Content := {
  heading : string;
  body : list Span
}.

Record Banner := { url : string }.

Record PostData := {
  title : string;
  banner : Banner;
  author : string;
  content : list Content
}.

Record Document := {
  id : string;
  type : string;
  uid : string;
  first_publication_date : option timestamp;
  last_publication_date : option timestamp;
  data : PostData
}.

(* ================================================================== *)
(** ** Reading time (component [Post]) *)

Module RichText.
(** [RichText.asText(body)] of prismic-dom: the texts of the fragments
    joined by a single space. *)
Definition asText (body : list Span) : JsString.t :=
  JsString.join [32%N] (map text body).
End RichText.

(** [Math.ceil(n / d)] for integers [n] and a positive literal [d]. *)
Definition Math_ceil_div (n : Z) (d : positive) : Z := Qceiling (n # d).

(** [RichText.asText(content.body).trim().split(/\s+/)] *)
Definition wordsArray (c : Content) : list JsString.t :=
  JsString.split_ws (JsString.trim (RichText.asText (body c))).

(** [post.data.content.reduce((accumulator, content) => ..., 0)] *)
Definition wordsCount (post : Document) : Z :=
  fold_left
    (fun accumulator c => accumulator + Z.of_nat (List.length (wordsArray c)))
    (content (data post)) 0.

Definition readingTime (post : Document) : Z :=
  Math_ceil_div (wordsCount post) 200.


(* ================================================================== *)
(** ** Dates: [Date] objects and [compareAsc] of date-fns *)

(** A JavaScript number as far as the page meets one outside of counts:
    the result of a comparison, an integer or [NaN]. *)
Inductive number :=
| Num (z : Z)
| NaN.

(** [!!n]: [0] and [NaN] are falsy, every other number is truthy. *)
Definition truthy (n : number) : bool :=
  match n with
  | Num z => negb (z =? 0)
  | NaN => false
  end.

Module JsDate.

(** A [Date] object, given by its time value; [None] is an Invalid Date
    (time value [NaN]). *)
Definition t := option Z.

(** [new Date(value)] on a date field of a document.  [null] converts to
    the number 0, the epoch; a time stamp converts to its instant. *)
Definition new_Date (value : option timestamp) : t :=
  match value with
  | None => Some 0
  | Some ms => Some ms
  end.

End JsDate.

(** [compareAsc(dateLeft, dateRight)]: the sign of the difference of the
    two time values, and [NaN] when one of the dates is invalid. *)
Definition compareAsc (dateLeft dateRight : JsDate.t) : number :=
  match dateLeft, dateRight with
  | Some l, Some r =>
      let diff := l - r in
      if diff <? 0 then Num (-1)
      else if 0 <? diff then Num 1
      else Num diff
  | _, _ => NaN
  end.

(* ================================================================== *)
(** ** Promises: an asynchronous call settles with a value or an exception *)

Inductive Exception :=
| TypeError (message : string)
| Error (message : string).

Inductive Promise (A : Type) :=
| Fulfilled (value : A)
| Rejected (reason : Exception).
Arguments Fulfilled {A} value.
Arguments Rejected {A} reason.

Definition bind {A B} (p : Promise A) (k : A -> Promise B) : Promise B :=
  match p with
  | Fulfilled a => k a
  | Rejected e => Rejected e
  end.

Notation "'await' x <- p ; k" := (bind p (fun x => k))
  (at level 10, x name, p at level 100, k at level 200).

(** Reading a property of [undefined] throws a [TypeError]. *)
Definition undefined_property (name : string) : Exception :=
  TypeError ("Cannot read property '" ++ name ++ "' of undefined").

(* ================================================================== *)
(** ** The content API: predicates, orderings and the query endpoint *)

Module Prismic.

(** The fragments the page queries on: ['document.type'],
    ['document.first_publication_date'] and, through [getByUID],
    ['my.<type>.uid']. *)
Inductive Fragment :=
| document_type
| document_first_publication_date
| my_uid (custom_type : string).

Inductive Predicate :=
| At (fragment : Fragment) (value : string)
| DateAfter (fragment : Fragment) (date : timestamp)
| DateBefore (fragment : Fragment) (date : timestamp).

Module Predicates.

Definition at_ (fragment : Fragment) (value : string) : Predicate :=
  At fragment value.

(** The client encodes the date into the query; a value that is neither
    a string, a number nor a [Date] ([null] here) cannot be encoded and
    the call throws. *)
Definition dateAfter (fragment : Fragment) (after : option timestamp)
  : Promise Predicate :=
  match after with
  | Some date => Fulfilled (DateAfter fragment date)
  | None => Rejected (Error "Unable to encode null of type object")
  end.

Definition dateBefore (fragment : Fragment) (before : option timestamp)
  : Promise Predicate :=
  match before with
  | Some date => Fulfilled (DateBefore fragment date)
  | None => Rejected (Error "Unable to encode null of type object")
  end.

End Predicates.

(** ['[document.first_publication_date]'] and
    ['[document.first_publication_date desc]']. *)
Record Ordering := {
  field : Fragment;
  desc : bool
}.

Record QueryOptions := {
  ref : option string;
  pageSize : nat;
  after : option string;
  orderings : option Ordering
}.

Record Query := {
  predicates : list Predicate;
  options : QueryOptions
}.

Record ApiSearchResponse := { results : list Document }.

(** The repository behind the endpoint: the documents of the master
    ref (what is published) and of every other ref (a preview session
    or a release), each in the store's own order. *)
Record Repository := {
  master : list Document;
  at_ref : string -> list Document
}.

Definition documents (repo : Repository) (r : option string) : list Document :=
  match r with
  | None => master repo
  | Some name => at_ref repo name
  end.

Definition text_value (f : Fragment) (d : Document) : option string :=
  match f with
  | document_type => Some (type d)
  | my_uid custom_type =>
      if String.eqb (type d) custom_type then Some (uid d) else None
  | document_first_publication_date => None
  end.

Definition date_value (f : Fragment) (d : Document) : option timestamp :=
  match f with
  | document_first_publication_date => first_publication_date d
  | _ => None
  end.

(** A document satisfies [date.after] and [date.before] only when its
    date is strictly after, or strictly before, the given one. *)
Definition satisfies (d : Document) (p : Predicate) : bool :=
  match p with
  | At f value =>
      match text_value f d with
      | Some v => String.eqb v value
      | None => false
      end
  | DateAfter f date =>
      match date_value f d with
      | Some v => date <? v
      | None => false
      end
  | DateBefore f date =>
      match date_value f d with
      | Some v => v <? date
      | None => false
      end
  end.

(** Order of two dates, a missing date first. *)
Definition date_leb (a b : option timestamp) : bool :=
  match a, b with
  | None, _ => true
  | Some _, None => false
  | Some x, Some y => x <=? y
  end.

Definition precedes (o : Ordering) (a b : Document) : bool :=
  if desc o then date_leb (date_value (field o) b) (date_value (field o) a)
  else date_leb (date_value (field o) a) (date_value (field o) b).

(** Sorting keeps documents that tie in the order the store had them. *)
Fixpoint insert (leb : Document -> Document -> bool) (x : Document)
    (l : list Document) : list Document :=
  match l with
  | [] => [x]
  | y :: r => if leb x y then x :: l else y :: insert leb x r
  end.

Fixpoint sort (leb : Document -> Document -> bool) (l : list Document)
  : list Document :=
  match l with
  | [] => []
  | x :: r => insert leb x (sort leb r)
  end.

Definition order_by (o : option Ordering) (l : list Document) : list Document :=
  match o with
  | None => l
  | Some o => sort (precedes o) l
  end.

(** [after]: the documents that follow the one with the given id in the
    ordered list (none when no document has that id). *)
Fixpoint following (cursor : string) (l : list Document) : list Document :=
  match l with
  | [] => []
  | d :: r => if String.eqb (id d) cursor then r else following cursor r
  end.

Definition after_cursor (cursor : option string) (l : list Document)
  : list Document :=
  match cursor with
  | None => l
  | Some i => following i l
  end.

(** The documents a query selects, before the response is built. *)
Definition select (repo : Repository) (q : Query) : list Document :=
  let matching :=
    filter (fun d => forallb (satisfies d) (predicates q))
           (documents repo (ref (options q))) in
  let ordered := order_by (orderings (options q)) matching in
  let rest := after_cursor (after (options q)) ordered in
  firstn (pageSize (options q)) rest.

(** [prismic.query(predicates, options)] *)
Definition query (repo : Repository) (q : Query) : Promise ApiSearchResponse :=
  Fulfilled {| results := select repo q |}.

(** [prismic.getByUID(type, uid, options)]: the first document of the
    custom type with that uid, [undefined] when there is none. *)
Definition getByUID (repo : Repository) (custom_type uid : string)
    (r : option string) : Promise (option Document) :=
  await response <-
    query repo
      {| predicates := [Predicates.at_ (my_uid custom_type) uid];
         options := {| ref := r; pageSize := 1; after := None;
                       orderings := None |} |};
  Fulfilled (hd_error (results response)).

End Prismic.

(* ================================================================== *)
(** ** The post page with preview support *)

Module PreviewPage.
Import Prismic.

Record PreviewData := { preview_ref : option string }.

Record PostProps := {
  post : Document;
  nextPost : option Document;
  prevPost : option Document;
  wasEdited : bool;
  preview : bool
}.

Record StaticProps := {
  props : PostProps;
  revalidate : Z
}.

(** The query for the post that follows [response]. *)
Definition nextPost_query (response : Document) : Query :=
  {| predicates := [Predicates.at_ document_type "posts"];
     options := {| ref := None;
                   pageSize := 1;
                   after := Some (id response);
                   orderings := Some {| field := document_first_publication_date;
                                        desc := false |} |} |}.

(** The query for the post that precedes [response]. *)
Definition prevPost_query (response : Document) : Query :=
  {| predicates := [Predicates.at_ document_type "posts"];
     options := {| ref := None;
                   pageSize := 1;
                   after := Some (id response);
                   orderings := Some {| field := document_first_publication_date;
                                        desc := true |} |} |}.

Definition getStaticProps (repo : Repository) (slug : string)
    (preview : option bool) (previewData : option PreviewData)
  : Promise StaticProps :=
  let preview := match preview with Some b => b | None => false end in
  await response <-
    getByUID repo "posts" slug
      (match previewData with
       | Some pd => preview_ref pd
       | None => None
       end);
  match response with
  | None => Rejected (undefined_property "id")
  | Some response =>
      await nextPost <- query repo (nextPost_query response);
      await prevPost <- query repo (prevPost_query response);
      let wasEdited :=
        truthy (compareAsc
                  (JsDate.new_Date (last_publication_date response))
                  (JsDate.new_Date (first_publication_date response))) in
      Fulfilled
        {| props := {| post := response;
                       nextPost := hd_error (results nextPost);
                       prevPost := hd_error (results prevPost);
                       wasEdited := wasEdited;
                       preview := preview |};
           revalidate := 60 * 5 |}
  end.

End PreviewPage.

(* ================================================================== *)
(** ** The post page without preview support *)

Module PlainPage.
Import Prismic.

Record PostProps := {
  post : Document;
  nextPost : option Document;
  prevPost : option Document;
  wasEdited : bool
}.

Record StaticProps := {
  props : PostProps;
  revalidate : Z
}.

Definition nextPost_query (response : Document) : Promise Query :=
  await p <- Predicates.dateAfter document_first_publication_date
               (first_publication_date response);
  Fulfilled
    {| predicates := [p];
       options := {| ref := None;
                     pageSize := 1;
                     after := None;
                     orderings := Some {| field := document_first_publication_date;
                                          desc := false |} |} |}.

Definition prevPost_query (response : Document) : Promise Query :=
  await p <- Predicates.dateBefore document_first_publication_date
               (first_publication_date response);
  Fulfilled
    {| predicates := [p];
       options := {| ref := None;
                     pageSize := 1;
                     after := None;
                     orderings := Some {| field := document_first_publication_date;
                                          desc := true |} |} |}.

Definition getStaticProps (repo : Repository) (slug : string)
  : Promise StaticProps :=
  await response <- getByUID repo "posts" slug None;
  match response with
  | None => Rejected (undefined_property "first_publication_date")
  | Some response =>
      await nextQuery <- nextPost_query response;
      await nextPost <- query repo nextQuery;
      await prevQuery <- prevPost_query response;
      await prevPost <- query repo prevQuery;
      let wasEdited :=
        truthy (compareAsc
                  (JsDate.new_Date (last_publication_date response))
                  (JsDate.new_Date (first_publication_date response))) in
      Fulfilled
        {| props := {| post := response;
                       nextPost := hd_error (results nextPost);
                       prevPost := hd_error (results prevPost);
                       wasEdited := wasEdited |};
           revalidate := 60 * 5 |}
  end.

End PlainPage.

(* ================================================================== *)
(** ** Vocabulary of the statements and sample data *)

Section Vocabulary.
Import Prismic.

Definition sample_block (s : string) : Content :=
  {| heading := "Intro"; body := [ {| text := JsString.of_string s |} ] |}.

Definition sample_document (i ty : string) (first last : option timestamp)
    (blocks : list Content) : Document :=
  {| id := i; type := ty; uid := i;
     first_publication_date := first; last_publication_date := last;
     data := {| title := i; banner := {| url := "" |}; author := "";
                content := blocks |} |}.

Definition sample_post (i : string) (first last : timestamp) : Document :=
  sample_document i "posts" (Some first) (Some last) [].

Definition repository_of (l : list Document) : Prismic.Repository :=
  {| Prismic.master := l; Prismic.at_ref := fun _ => l |}.

(** The words of a text: its maximal runs of characters that are not
    white space.  [in_word] tells whether the scan is inside a word. *)
Fixpoint count_words_from (in_word : bool) (s : JsString.t) : nat :=
  match s with
  | [] => 0
  | c :: r =>
      if JsString.is_white_space c then count_words_from false r
      else ((if in_word then 0 else 1) + count_words_from true r)%nat
  end.

Definition count_words (s : JsString.t) : nat := count_words_from false s.

(** The number of pieces that one content block adds to the count. *)
Definition pieces (c : Content) : Z := Z.of_nat (List.length (wordsArray c)).

Fixpoint total (l : list Z) : Z :=
  match l with
  | [] => 0
  | x :: r => x + total r
  end.

(** A block of [n] words separated by single spaces, and a post made of
    such blocks. *)
Definition words_block (n : nat) : Content :=
  {| heading := "Text";
     body := map (fun w => {| text := w |}) (repeat (JsString.of_string "word") n) |}.

Definition post_of_words (sizes : list nat) : Document :=
  sample_document "p" "posts" (Some 0) (Some 0) (map words_block sizes).

(** [a] is chronologically strictly after [b], both read the way the
    page reads a date field ([new Date(field)]). *)
Definition strictly_after (a b : option timestamp) : Prop :=
  match JsDate.new_Date a, JsDate.new_Date b with
  | Some x, Some y => y < x
  | _, _ => False
  end.

(** The document [getByUID] resolves a slug to, at a ref. *)
Definition resolve (repo : Prismic.Repository) (slug : string)
    (r : option string) : option Document :=
  find (fun d => String.eqb (type d) "posts" && String.eqb (uid d) slug)
       (Prismic.documents repo r).

Definition preview_ref_of (previewData : option PreviewPage.PreviewData)
  : option string :=
  match previewData with
  | Some pd => PreviewPage.preview_ref pd
  | None => None
  end.

(** Four posts; A and B were first published at the same instant, C was
    published again after its first publication. *)
Definition blog : Prismic.Repository :=
  repository_of [sample_post "A" 10 10; sample_post "B" 10 10;
                 sample_post "C" 20 25; sample_post "D" 5 5].

(** A post whose last publication date lies before its first one. *)
Definition backdated : Prismic.Repository :=
  repository_of [sample_post "A" 10 5].

(** The published posts, as the queries of the page with preview support
    select them. *)
Definition published_posts (repo : Repository) : list Document :=
  filter (fun d => forallb (satisfies d) [Predicates.at_ document_type "posts"])
         (master repo).

Definition ascending : Ordering :=
  {| field := document_first_publication_date; desc := false |}.
Definition descending : Ordering :=
  {| field := document_first_publication_date; desc := true |}.

(** What the page without preview support selects around a date. *)
Definition later_than (t : timestamp) (d : Document) : bool :=
  forallb (satisfies d) [DateAfter document_first_publication_date t].
Definition earlier_than (t : timestamp) (d : Document) : bool :=
  forallb (satisfies d) [DateBefore document_first_publication_date t].

(** No two published posts carry the same first publication date. *)
Definition distinct_dates (repo : Prismic.Repository) : Prop :=
  forall a b,
    In a (published_posts repo) -> In b (published_posts repo) ->
    first_publication_date a = first_publication_date b -> a = b.

(** Three posts published at different instants, stored out of order. *)
Definition timeline : Prismic.Repository :=
  repository_of [sample_post "B" 20 20; sample_post "C" 30 31;
                 sample_post "A" 10 10].

(** A post and a page of another custom type that was published later. *)
Definition mixed : Prismic.Repository :=
  repository_of [sample_post "A" 10 10;
                 sample_document "about" "page" (Some 20) (Some 20) []].

(** The two pages settle alike: both reject, or both fulfil with the
    same [post], [nextPost], [prevPost] and [wasEdited]. *)
Definition same_assembly (a : Promise PreviewPage.StaticProps)
    (b : Promise PlainPage.StaticProps) : Prop :=
  match a, b with
  | Fulfilled x, Fulfilled y =>
      PreviewPage.post (PreviewPage.props x) = PlainPage.post (PlainPage.props y)
      /\ PreviewPage.nextPost (PreviewPage.props x)
         = PlainPage.nextPost (PlainPage.props y)
      /\ PreviewPage.prevPost (PreviewPage.props x)
         = PlainPage.prevPost (PlainPage.props y)
      /\ PreviewPage.wasEdited (PreviewPage.props x)
         = PlainPage.wasEdited (PlainPage.props y)
  | Rejected _, Rejected _ => True
  | _, _ => False
  end.

(** Every document of the master ref is a post with a first publication
    date. *)
Definition all_dated_posts (repo : Prismic.Repository) : Prop :=
  forall d, In d (Prismic.master repo) ->
            type d = "posts"%string /\ first_publication_date d <> None.

End Vocabulary.

(* ================================================================== *)
(** ** The paths generated at build time *)

(** [getStaticPaths] reads the same in both revisions of the page.  The
    [fetch] option of its query only limits which fields of [data] the
    store delivers; the function reads nothing but [uid]. *)
Module PostPaths.
Import Prismic.

Record Params := { slug : string }.

Record Path := { params : Params }.

Record StaticPaths := {
  paths : list Path;
  fallback : bool
}.

Definition getStaticPaths (repo : Repository) : Promise StaticPaths :=
  await postsResponse <-
    query repo
      {| predicates := [Predicates.at_ document_type "posts"];
         options := {| ref := None; pageSize := 1; after := None;
                       orderings := None |} |};
  let paths :=
    map (fun post => {| params := {| slug := uid post |} |})
        (results postsResponse) in
  Fulfilled {| paths := paths; fallback := true |}.

End PostPaths.

(* ================================================================== *)
(** ** Further vocabulary *)

(** The words of the fragments of a block, counted fragment by fragment. *)
Definition fragment_words (c : Content) : nat :=
  list_sum (map (fun f => count_words (text f)) (body c)).

(** A character that is not white space. *)
Definition in_word (c : JsString.code_unit) : Prop :=
  JsString.is_white_space c = false.

(** [a] is a date strictly before the date [b]; a missing date is neither
    before nor after any other. *)
Definition date_lt (a b : option timestamp) : Prop :=
  match a, b with
  | Some x, Some y => x < y
  | _, _ => False
  end.

(** No two documents of the master ref carry the same uid. *)
Definition unique_uids (repo : Prismic.Repository) : Prop :=
  NoDup (map uid (Prismic.master repo)).

(** Two published posts, and a preview session whose ref also holds a
    draft that was never published and a later revision of post A. *)
Definition previewed : Prismic.Repository :=
  {| Prismic.master := [sample_post "A" 10 10; sample_post "B" 20 20];
     Prismic.at_ref := fun _ =>
       [sample_document "N" "posts" None None [];
        sample_post "A" 10 15; sample_post "B" 20 20] |}.

Definition preview_session : option PreviewPage.PreviewData :=
  Some {| PreviewPage.preview_ref := Some "preview-token"%string |}.

(** Two posts first published at the same instant, and nothing else. *)
Definition tied_pair : Prismic.Repository :=
  repository_of [sample_post "A" 10 10; sample_post "B" 10 10].

(* ================================================================== *)
(** * Properties of the reading time *)

Section ReadingTime.

Lemma reduce_total (l : list Content) (acc : Z) :
  fold_left (fun accumulator c => accumulator + Z.of_nat (List.length (wordsArray c)))
            l acc
  = acc + total (map pieces l).
Proof.
  revert acc; induction l as [|c l IH]; intros acc; simpl.
  - lia.
  - rewrite IH. unfold pieces. lia.
Qed.

Lemma wordsCount_total (post : Document) :
  wordsCount post = total (map pieces (content (data post))).
Proof. unfold wordsCount. rewrite reduce_total. lia. Qed.

(** The split never returns an empty array. *)
Lemma split_nonempty (s : JsString.t) :
  (forall piece, (1 <= List.length (JsString.split_piece piece s))%nat)
  /\ (1 <= List.length (JsString.split_run s))%nat.
Proof.
  induction s as [|c r [IHp IHr]]; split; intros; simpl; try lia.
  - destruct (JsString.is_white_space c); simpl; [lia | apply IHp].
  - destruct (JsString.is_white_space c); [apply IHr | apply IHp].
Qed.

Lemma pieces_pos (c : Content) : 1 <= pieces c.
Proof.
  unfold pieces, wordsArray, JsString.split_ws.
  pose proof (proj1 (split_nonempty (JsString.trim (RichText.asText (body c)))) []).
  lia.
Qed.

Lemma total_pieces_ge_length (l : list Content) :
  Z.of_nat (List.length l) <= total (map pieces l).
Proof.
  induction l as [|c l IH]; simpl List.length; simpl total; [lia|].
  pose proof (pieces_pos c). lia.
Qed.

(** [Math.ceil(n / d)] is the least integer [m] with [n <= d * m]. *)
Lemma Math_ceil_div_bounds (n : Z) (d : positive) :
  Z.pos d * (Math_ceil_div n d - 1) < n <= Z.pos d * Math_ceil_div n d.
Proof.
  unfold Math_ceil_div, Qceiling, Qfloor, Qopp; simpl Qnum; simpl Qden.
  pose proof (Z.div_mod (- n) (Z.pos d) ltac:(lia)) as E.
  pose proof (Z.mod_pos_bound (- n) (Z.pos d) ltac:(lia)) as B.
  nia.
Qed.

Lemma Math_ceil_div_unique (n m : Z) (d : positive) :
  Z.pos d * (m - 1) < n <= Z.pos d * m -> Math_ceil_div n d = m.
Proof.
  intros H. pose proof (Math_ceil_div_bounds n d). nia.
Qed.


End ReadingTime.

Section Words.
Import JsString.

Let ws (c : code_unit) : Prop := is_white_space c = true.

Lemma trimStart_words (s : t) : count_words (trimStart s) = count_words s.
Proof.
  unfold count_words. induction s as [|c r IH]; simpl; [reflexivity|].
  destruct (is_white_space c) eqn:E; [exact IH|].
  simpl. rewrite E. reflexivity.
Qed.

Lemma trimStart_head (s : t) :
  trimStart s = []
  \/ exists c r, trimStart s = c :: r /\ is_white_space c = false.
Proof.
  induction s as [|c r IH]; simpl; [now left|].
  destruct (is_white_space c) eqn:E; [exact IH|].
  right. exists c, r. auto.
Qed.

Lemma trimStart_prefix (s : t) :
  exists w, s = w ++ trimStart s /\ Forall ws w.
Proof.
  induction s as [|c r (w & E & F)]; simpl.
  - exists []. split; [reflexivity | constructor].
  - destruct (is_white_space c) eqn:Ec.
    + exists (c :: w). split; [simpl; congruence | now constructor].
    + exists []. split; [reflexivity | constructor].
Qed.

Lemma trimEnd_suffix (s : t) :
  exists w, s = trimEnd s ++ w /\ Forall ws w.
Proof.
  destruct (trimStart_prefix (rev s)) as (w & E & F).
  exists (rev w). split.
  - unfold trimEnd. rewrite <- rev_app_distr, <- E. symmetry. apply rev_involutive.
  - now apply Forall_rev.
Qed.

Lemma trimEnd_last (s : t) :
  trimEnd s = []
  \/ exists u c, trimEnd s = u ++ [c] /\ is_white_space c = false.
Proof.
  unfold trimEnd.
  destruct (trimStart_head (rev s)) as [E|(c & r & E & Hc)]; rewrite E.
  - now left.
  - right. exists (rev r), c. auto.
Qed.

Lemma words_of_white_space (b : bool) (w : t) :
  Forall ws w -> count_words_from b w = 0%nat.
Proof.
  intros F. revert b. induction F as [|c w Hc F IH]; intros b; simpl; [reflexivity|].
  unfold ws in Hc. rewrite Hc. apply IH.
Qed.

Lemma words_app_white_space (b : bool) (s w : t) :
  Forall ws w -> count_words_from b (s ++ w) = count_words_from b s.
Proof.
  intros F. revert b. induction s as [|c r IH]; intros b; simpl.
  - now apply words_of_white_space.
  - destruct (is_white_space c); rewrite IH; reflexivity.
Qed.

Lemma trimEnd_words (s : t) : count_words (trimEnd s) = count_words s.
Proof.
  destruct (trimEnd_suffix s) as (w & E & F).
  unfold count_words.
  rewrite <- (words_app_white_space false (trimEnd s) w F), <- E.
  reflexivity.
Qed.

(** On a string that ends with a word, the split gives one piece per
    word; the piece that is open when the scan starts counts too. *)
Lemma split_counts_words (u : t) (c : code_unit) :
  is_white_space c = false ->
  (forall piece,
      List.length (split_piece piece (u ++ [c]))
      = S (count_words_from true (u ++ [c])))
  /\ List.length (split_run (u ++ [c])) = count_words_from false (u ++ [c]).
Proof.
  intros Hc. induction u as [|x u [IHp IHr]]; simpl.
  - rewrite Hc. simpl. split; reflexivity.
  - destruct (is_white_space x); simpl.
    + split; [intros piece|]; now rewrite IHr.
    + split; [intros piece|]; now rewrite IHp.
Qed.

(** The pieces of a trimmed text are its words; a text without words
    still gives one (empty) piece. *)
Lemma pieces_are_words (s : t) :
  List.length (split_ws (trim s)) = Nat.max 1 (count_words s).
Proof.
  rewrite <- (trimStart_words s), <- (trimEnd_words (trimStart s)).
  fold (trim s).
  destruct (trimEnd_last (trimStart s)) as [E|(u & c & E & Hc)];
    fold (trim s) in E.
  - rewrite E. reflexivity.
  - unfold split_ws. rewrite E.
    rewrite (proj1 (split_counts_words u c Hc)).
    assert (H : count_words (u ++ [c]) = S (count_words_from true (u ++ [c]))).
    { rewrite <- E.
      destruct (trimEnd_suffix (trimStart s)) as (w & Ew & _).
      fold (trim s) in Ew.
      destruct (trimStart_head s) as [E0|(x & r & E0 & Hx)].
      - rewrite E0 in Ew. destruct (trim s); [|discriminate Ew].
        destruct u; discriminate E.
      - rewrite E0 in Ew. destruct (trim s) as [|y t'] eqn:Et.
        + destruct u; discriminate E.
        + simpl in Ew. injection Ew as <- _.
          unfold count_words. simpl. rewrite Hx. reflexivity. }
    rewrite H. reflexivity.
Qed.

End Words.

(** The split on some small texts, as the language gives it. *)
Example split_examples :
  JsString.split_ws (JsString.of_string "") = [[]]
  /\ JsString.split_ws (JsString.of_string "a b") = [[97%N]; [98%N]]
  /\ JsString.split_ws (JsString.of_string " a  b ") = [[]; [97%N]; [98%N]; []]
  /\ map (fun s => List.length (wordsArray (sample_block s)))
         [""; "   "; "one"; "  one two  "; "one two three"]%string
     = [1; 1; 1; 2; 3]%nat.
Proof. repeat split. Qed.

Example compareAsc_examples :
  compareAsc (Some 2) (Some 1) = Num 1
  /\ compareAsc (Some 1) (Some 2) = Num (-1)
  /\ compareAsc (Some 1) (Some 1) = Num 0
  /\ compareAsc None (Some 1) = NaN
  /\ map truthy [Num 1; Num (-1); Num 0; NaN] = [true; true; false; false].
Proof. repeat split. Qed.


(** C2: the reading time of a post is the ceiling of its word count
    divided by 200, where the word count is the sum, over the content
    blocks, of the number of pieces that splitting the block's trimmed
    plain text on runs of white space gives (the number of words of the
    block, and 1 for a block without words); a post without content
    blocks has reading time 0, one of exactly 200 words has reading time
    1 and one of 201 words has reading time 2. *)
Theorem readingTime_is_ceiling (post : Document) :
  wordsCount post
  = total (map (fun c =>
                  Z.of_nat (List.length
                    (JsString.split_ws
                       (JsString.trim (RichText.asText (body c))))))
               (content (data post)))
  /\ wordsCount post
     = total (map (fun c =>
                     Z.of_nat (Nat.max 1 (count_words (RichText.asText (body c)))))
                  (content (data post)))
  /\ 200 * (readingTime post - 1) < wordsCount post <= 200 * readingTime post
  /\ (content (data post) = [] -> readingTime post = 0)
  /\ (wordsCount post = 200 -> readingTime post = 1)
  /\ (wordsCount post = 201 -> readingTime post = 2).
Proof.
  pose proof (Math_ceil_div_bounds (wordsCount post) 200) as B.
  fold (readingTime post) in B.
  split; [apply wordsCount_total|].
  split.
  { rewrite wordsCount_total. f_equal. apply map_ext. intros c.
    unfold pieces, wordsArray. now rewrite pieces_are_words. }
  split; [exact B|].
  split; [|split]; intros H.
  - assert (W : wordsCount post = 0) by (unfold wordsCount; rewrite H; reflexivity).
    lia.
  - lia.
  - lia.
Qed.

Lemma readingTime_is_ceiling_witness :
  readingTime (post_of_words []) = 0
  /\ readingTime (post_of_words [120; 80]%nat) = 1
  /\ readingTime (post_of_words [120; 81]%nat) = 2.
Proof.
  split; [|split].
  - apply (readingTime_is_ceiling (post_of_words [])). reflexivity.
  - apply (readingTime_is_ceiling (post_of_words [120; 80]%nat)).
    vm_compute. reflexivity.
  - apply (readingTime_is_ceiling (post_of_words [120; 81]%nat)).
    vm_compute. reflexivity.
Defined.



(** C10: a content block whose plain text is empty still adds exactly
    one piece to the word count, because splitting the empty string gives
    one empty piece; hence every post with at least one content block has
    a reading time of at least 1, whatever its blocks hold. *)
Theorem empty_block_counts_one :
  (forall c : Content,
      RichText.asText (body c) = [] -> List.length (wordsArray c) = 1%nat)
  /\ (forall post : Document,
         content (data post) <> [] -> 1 <= readingTime post).
Proof.
  split.
  - intros c H. unfold wordsArray. rewrite H. reflexivity.
  - intros post H.
    pose proof (Math_ceil_div_bounds (wordsCount post) 200) as B.
    fold (readingTime post) in B.
    pose proof (total_pieces_ge_length (content (data post))) as L.
    rewrite <- wordsCount_total in L.
    destruct (content (data post)) as [|c l]; [congruence|].
    simpl List.length in L. lia.
Qed.

Lemma empty_block_counts_one_witness :
  List.length (wordsArray {| heading := "Empty"; body := [] |}) = 1%nat
  /\ 1 <= readingTime (post_of_words [0; 0]%nat).
Proof.
  split.
  - apply (proj1 empty_block_counts_one). reflexivity.
  - apply (proj2 empty_block_counts_one). discriminate.
Defined.

(* ================================================================== *)
(** * Properties of the assembled props *)

Section Assembly.
Import Prismic.

Lemma hd_error_firstn_1 {A} (l : list A) : hd_error (firstn 1 l) = hd_error l.
Proof. destruct l; reflexivity. Qed.

Lemma hd_error_filter {A} (f : A -> bool) (l : list A) :
  hd_error (filter f l) = find f l.
Proof.
  induction l as [|x l IH]; simpl; [reflexivity|].
  destruct (f x); [reflexivity | exact IH].
Qed.

Lemma find_pointwise {A} (f g : A -> bool) (l : list A) :
  (forall x, f x = g x) -> find f l = find g l.
Proof.
  intros E. induction l as [|x l IH]; simpl; [reflexivity|].
  rewrite E, IH. reflexivity.
Qed.

Lemma getByUID_resolve (repo : Repository) (slug : string) (r : option string) :
  getByUID repo "posts" slug r = Fulfilled (resolve repo slug r).
Proof.
  unfold getByUID, query, select, bind, resolve.
  cbn [results options predicates pageSize ref after orderings order_by
       after_cursor].
  rewrite hd_error_firstn_1, hd_error_filter.
  f_equal. apply find_pointwise. intros d.
  cbn [forallb satisfies text_value Predicates.at_].
  destruct (String.eqb (type d) "posts"); cbn [andb]; [|reflexivity].
  rewrite andb_true_r. reflexivity.
Qed.

Lemma PlainPage_getStaticProps_inv repo slug r :
  PlainPage.getStaticProps repo slug = Fulfilled r ->
  exists response nq pq,
    resolve repo slug None = Some response
    /\ PlainPage.nextPost_query response = Fulfilled nq
    /\ PlainPage.prevPost_query response = Fulfilled pq
    /\ PlainPage.props r
       = {| PlainPage.post := response;
            PlainPage.nextPost := hd_error (select repo nq);
            PlainPage.prevPost := hd_error (select repo pq);
            PlainPage.wasEdited :=
              truthy (compareAsc
                        (JsDate.new_Date (last_publication_date response))
                        (JsDate.new_Date (first_publication_date response))) |}.
Proof.
  unfold PlainPage.getStaticProps. rewrite getByUID_resolve. simpl.
  destruct (resolve repo slug None) as [response|]; [|discriminate].
  destruct (PlainPage.nextPost_query response) as [nq|e] eqn:En; [|discriminate].
  destruct (PlainPage.prevPost_query response) as [pq|e] eqn:Ep; [|discriminate].
  simpl. intros H. injection H as <-.
  exists response, nq, pq. split; [reflexivity|]. split; [exact En|].
  split; [exact Ep | reflexivity].
Qed.

Lemma PreviewPage_getStaticProps_inv repo slug preview previewData r :
  PreviewPage.getStaticProps repo slug preview previewData = Fulfilled r ->
  exists response,
    resolve repo slug (preview_ref_of previewData) = Some response
    /\ PreviewPage.props r
       = {| PreviewPage.post := response;
            PreviewPage.nextPost :=
              hd_error (select repo (PreviewPage.nextPost_query response));
            PreviewPage.prevPost :=
              hd_error (select repo (PreviewPage.prevPost_query response));
            PreviewPage.wasEdited :=
              truthy (compareAsc
                        (JsDate.new_Date (last_publication_date response))
                        (JsDate.new_Date (first_publication_date response)));
            PreviewPage.preview :=
              match preview with Some b => b | None => false end |}.
Proof.
  unfold PreviewPage.getStaticProps. rewrite getByUID_resolve. simpl.
  fold (preview_ref_of previewData).
  destruct (resolve repo slug (preview_ref_of previewData)) as [response|];
    [|discriminate].
  simpl. intros H. injection H as <-.
  exists response. split; reflexivity.
Qed.

(** [!!compareAsc(new Date(last), new Date(first))] holds exactly when
    the two instants differ. *)
Lemma edited_iff_differ (last first : option timestamp) :
  truthy (compareAsc (JsDate.new_Date last) (JsDate.new_Date first)) = true
  <-> strictly_after last first \/ strictly_after first last.
Proof.
  unfold strictly_after.
  destruct last as [l|], first as [f|]; simpl.
  all: repeat match goal with
       | |- context [?a <? ?b] => destruct (Z.ltb_spec a b)
       end; simpl.
  all: repeat match goal with
       | |- context [?a =? ?b] => destruct (Z.eqb_spec a b)
       end; simpl.
  all: split; intros; try discriminate; try reflexivity; try lia.
Qed.

End Assembly.

Lemma compareAsc_same (v : option timestamp) :
  truthy (compareAsc (JsDate.new_Date v) (JsDate.new_Date v)) = false.
Proof.
  destruct v as [t|]; simpl; [|reflexivity].
  rewrite Z.sub_diag. reflexivity.
Qed.

(** C8: when the last publication date of the fetched post equals its
    first publication date, the assembled [wasEdited] flag is false, on
    both pages. *)
Theorem wasEdited_false_on_equal_dates
    (repo : Prismic.Repository) (slug : string)
    (preview : option bool) (previewData : option PreviewPage.PreviewData) :
  (forall r,
      PlainPage.getStaticProps repo slug = Fulfilled r ->
      last_publication_date (PlainPage.post (PlainPage.props r))
      = first_publication_date (PlainPage.post (PlainPage.props r)) ->
      PlainPage.wasEdited (PlainPage.props r) = false)
  /\ (forall r,
      PreviewPage.getStaticProps repo slug preview previewData = Fulfilled r ->
      last_publication_date (PreviewPage.post (PreviewPage.props r))
      = first_publication_date (PreviewPage.post (PreviewPage.props r)) ->
      PreviewPage.wasEdited (PreviewPage.props r) = false).
Proof.
  split; intros r H.
  - apply PlainPage_getStaticProps_inv in H.
    destruct H as (response & nq & pq & _ & _ & _ & ->). simpl.
    intros ->. apply compareAsc_same.
  - apply PreviewPage_getStaticProps_inv in H.
    destruct H as (response & _ & ->). simpl.
    intros ->. apply compareAsc_same.
Qed.

Lemma wasEdited_false_on_equal_dates_witness :
  (exists r, PlainPage.getStaticProps blog "A" = Fulfilled r
             /\ PlainPage.wasEdited (PlainPage.props r) = false)
  /\ (exists r, PreviewPage.getStaticProps blog "A" None None = Fulfilled r
                /\ PreviewPage.wasEdited (PreviewPage.props r) = false).
Proof.
  split; eexists; (split; [reflexivity|]).
  - apply (proj1 (wasEdited_false_on_equal_dates blog "A" None None));
      reflexivity.
  - apply (proj2 (wasEdited_false_on_equal_dates blog "A" None None));
      reflexivity.
Defined.

(** C1, as stated, fails: for a post whose last publication date (5) is
    strictly before its first publication date (10) the page assembles
    [wasEdited = true], although the last date is not after the first. *)
Lemma wasEdited_true_on_earlier_last_date :
  exists r,
    PlainPage.getStaticProps backdated "A" = Fulfilled r
    /\ last_publication_date (PlainPage.post (PlainPage.props r)) = Some 5
    /\ first_publication_date (PlainPage.post (PlainPage.props r)) = Some 10
    /\ ~ strictly_after
           (last_publication_date (PlainPage.post (PlainPage.props r)))
           (first_publication_date (PlainPage.post (PlainPage.props r)))
    /\ PlainPage.wasEdited (PlainPage.props r) = true.
Proof.
  eexists. split; [reflexivity|]. simpl.
  repeat split. unfold strictly_after; simpl. lia.
Qed.

(** C1, amended: the assembled [wasEdited] flag is true if and only if
    the last publication date of the fetched post differs from its first
    publication date, that is, lies strictly after it or strictly before
    it; on both pages. *)
Theorem wasEdited_iff_dates_differ
    (repo : Prismic.Repository) (slug : string)
    (preview : option bool) (previewData : option PreviewPage.PreviewData) :
  (forall r,
      PlainPage.getStaticProps repo slug = Fulfilled r ->
      let response := PlainPage.post (PlainPage.props r) in
      PlainPage.wasEdited (PlainPage.props r) = true
      <-> strictly_after (last_publication_date response)
                         (first_publication_date response)
          \/ strictly_after (first_publication_date response)
                            (last_publication_date response))
  /\ (forall r,
      PreviewPage.getStaticProps repo slug preview previewData = Fulfilled r ->
      let response := PreviewPage.post (PreviewPage.props r) in
      PreviewPage.wasEdited (PreviewPage.props r) = true
      <-> strictly_after (last_publication_date response)
                         (first_publication_date response)
          \/ strictly_after (first_publication_date response)
                            (last_publication_date response)).
Proof.
  split; intros r H.
  - apply PlainPage_getStaticProps_inv in H.
    destruct H as (response & nq & pq & _ & _ & _ & ->). simpl.
    apply edited_iff_differ.
  - apply PreviewPage_getStaticProps_inv in H.
    destruct H as (response & _ & ->). simpl.
    apply edited_iff_differ.
Qed.

Lemma wasEdited_iff_dates_differ_witness :
  (exists r, PlainPage.getStaticProps blog "C" = Fulfilled r
             /\ PlainPage.wasEdited (PlainPage.props r) = true)
  /\ (exists r, PreviewPage.getStaticProps blog "C" None None = Fulfilled r
                /\ PreviewPage.wasEdited (PreviewPage.props r) = true).
Proof.
  split; eexists; (split; [reflexivity|]).
  - apply (proj1 (wasEdited_iff_dates_differ blog "C" None None));
      [reflexivity|].
    left. unfold strictly_after. simpl. lia.
  - apply (proj2 (wasEdited_iff_dates_differ blog "C" None None));
      [reflexivity|].
    left. unfold strictly_after. simpl. lia.
Defined.

(* ================================================================== *)
(** * The ordering of query results *)

Section Sorting.
Import Prismic.

Variable leb : Document -> Document -> bool.
Hypothesis leb_total : forall a b, leb a b = true \/ leb b a = true.
Hypothesis leb_trans :
  forall a b c, leb a b = true -> leb b c = true -> leb a c = true.

Let R (a b : Document) : Prop := leb a b = true.

Lemma insert_perm (x : Document) (l : list Document) :
  Permutation (insert leb x l) (x :: l).
Proof.
  induction l as [|y l IH]; simpl; [reflexivity|].
  destruct (leb x y); [reflexivity|].
  rewrite IH. apply perm_swap.
Qed.

Lemma sort_perm (l : list Document) : Permutation (sort leb l) l.
Proof.
  induction l as [|x l IH]; simpl; [reflexivity|].
  rewrite insert_perm. now apply perm_skip.
Qed.

Lemma In_sort (d : Document) (l : list Document) :
  In d (sort leb l) <-> In d l.
Proof.
  split; apply Permutation_in; [|symmetry]; apply sort_perm.
Qed.

Lemma insert_sorted (x : Document) (l : list Document) :
  StronglySorted R l -> StronglySorted R (insert leb x l).
Proof.
  induction 1 as [|y l S IH F]; simpl.
  - constructor; constructor.
  - destruct (leb x y) eqn:E.
    + constructor; [now constructor|].
      constructor; [exact E|].
      eapply Forall_impl; [|exact F].
      intros z Hz. eapply leb_trans; eassumption.
    + constructor; [exact IH|].
      assert (Ryx : R y x) by (destruct (leb_total x y); congruence).
      rewrite Forall_forall in *. intros z Hz.
      apply (Permutation_in _ (insert_perm x l)) in Hz.
      destruct Hz as [<-|Hz]; [exact Ryx | now apply F].
Qed.

Lemma sort_sorted (l : list Document) : StronglySorted R (sort leb l).
Proof.
  induction l as [|x l IH]; simpl; [constructor | now apply insert_sorted].
Qed.

(** Selecting documents before or after ordering gives the same list. *)
Lemma filter_insert (keep : Document -> bool) (x : Document) (l : list Document) :
  StronglySorted R l ->
  filter keep (insert leb x l)
  = if keep x then insert leb x (filter keep l) else filter keep l.
Proof.
  induction 1 as [|y l S IH F]; simpl.
  - destruct (keep x); reflexivity.
  - destruct (leb x y) eqn:E; simpl.
    + destruct (keep x) eqn:Kx, (keep y) eqn:Ky; simpl; rewrite ?E; try reflexivity.
      (* x is kept, y is not: x goes before whatever of l is kept *)
      clear IH. induction l as [|z l IHl]; simpl; [reflexivity|].
      inversion F as [|? ? Ryz F']; subst. inversion S; subst.
      destruct (keep z); simpl.
      * replace (leb x z) with true; [reflexivity|].
        symmetry. eapply leb_trans; eassumption.
      * now apply IHl.
    + rewrite IH. destruct (keep x), (keep y); simpl; rewrite ?E; reflexivity.
Qed.

Lemma sort_filter (keep : Document -> bool) (l : list Document) :
  sort leb (filter keep l) = filter keep (sort leb l).
Proof.
  induction l as [|x l IH]; simpl; [reflexivity|].
  rewrite filter_insert by apply sort_sorted.
  destruct (keep x); simpl; now rewrite IH.
Qed.

(** Every document that follows the cursor in a sorted list comes after
    the document the cursor names. *)
Lemma following_sorted (cursor : string) (l : list Document) (d : Document) :
  StronglySorted R l ->
  In d (following cursor l) ->
  exists c, In c l /\ id c = cursor /\ R c d.
Proof.
  induction 1 as [|y l S IH F]; simpl; [tauto|].
  destruct (String.eqb_spec (id y) cursor) as [E|E].
  - intros Hd. exists y. rewrite Forall_forall in F. auto.
  - intros Hd. destruct (IH Hd) as (c & Hc & Hi & Hr). exists c. auto.
Qed.

End Sorting.

Section Neighbours.
Import Prismic.

Lemma date_leb_total (a b : option timestamp) :
  date_leb a b = true \/ date_leb b a = true.
Proof.
  destruct a as [x|], b as [y|]; simpl; auto.
  destruct (Z.leb_spec x y); [now left|right]. apply Z.leb_le. lia.
Qed.

Lemma date_leb_trans (a b c : option timestamp) :
  date_leb a b = true -> date_leb b c = true -> date_leb a c = true.
Proof.
  destruct a as [x|], b as [y|], c as [z|]; simpl; try congruence.
  rewrite !Z.leb_le. lia.
Qed.


Lemma precedes_total (o : Ordering) (a b : Document) :
  precedes o a b = true \/ precedes o b a = true.
Proof. unfold precedes. destruct (desc o); apply date_leb_total. Qed.

Lemma precedes_trans (o : Ordering) (a b c : Document) :
  precedes o a b = true -> precedes o b c = true -> precedes o a c = true.
Proof.
  unfold precedes. destruct (desc o); intros H1 H2;
    eapply date_leb_trans; eassumption.
Qed.

Lemma hd_error_In {A} (l : list A) (x : A) : hd_error l = Some x -> In x l.
Proof. destruct l; simpl; [discriminate|]. intros [= ->]. now left. Qed.

Lemma following_In (cursor : string) (l : list Document) (d : Document) :
  In d (following cursor l) -> In d l.
Proof.
  induction l as [|y l IH]; simpl; [tauto|].
  destruct (String.eqb (id y) cursor); auto.
Qed.

Lemma following_other_id (cursor : string) (l : list Document) (d : Document) :
  NoDup (map id l) -> In d (following cursor l) -> id d <> cursor.
Proof.
  induction l as [|y l IH]; simpl; [tauto|].
  intros N Hd. inversion N as [|? ? Hy N']; subst.
  destruct (String.eqb_spec (id y) cursor) as [E|E].
  - intros Ed. apply Hy. rewrite E, <- Ed. now apply in_map.
  - now apply IH.
Qed.

Lemma NoDup_map_filter {A B} (f : A -> B) (keep : A -> bool) (l : list A) :
  NoDup (map f l) -> NoDup (map f (filter keep l)).
Proof.
  induction l as [|x l IH]; simpl; [auto|].
  intros N. inversion N as [|? ? Hx N']; subst.
  destruct (keep x); simpl; [|auto].
  constructor; [|auto].
  intros H. apply Hx. apply in_map_iff in H. destruct H as (y & E & Hy).
  apply filter_In in Hy. rewrite <- E. apply in_map. tauto.
Qed.

Lemma NoDup_map_inj {A B} (f : A -> B) (l : list A) (a b : A) :
  NoDup (map f l) -> In a l -> In b l -> f a = f b -> a = b.
Proof.
  induction l as [|x l IH]; simpl; [tauto|].
  intros N Ha Hb E. inversion N as [|? ? Hx N']; subst.
  destruct Ha as [<-|Ha], Hb as [<-|Hb]; auto.
  - exfalso. apply Hx. rewrite E. now apply in_map.
  - exfalso. apply Hx. rewrite <- E. now apply in_map.
Qed.

Lemma preview_next_select (repo : Repository) (response : Document) :
  hd_error (select repo (PreviewPage.nextPost_query response))
  = hd_error (following (id response)
                (sort (precedes ascending) (published_posts repo))).
Proof. unfold select. simpl. apply hd_error_firstn_1. Qed.

Lemma preview_prev_select (repo : Repository) (response : Document) :
  hd_error (select repo (PreviewPage.prevPost_query response))
  = hd_error (following (id response)
                (sort (precedes descending) (published_posts repo))).
Proof. unfold select. simpl. apply hd_error_firstn_1. Qed.

Lemma published_posts_In (repo : Repository) (d : Document) :
  In d (published_posts repo) <-> In d (master repo) /\ type d = "posts"%string.
Proof.
  unfold published_posts. rewrite filter_In. simpl.
  rewrite andb_true_r.
  destruct (String.eqb_spec (type d) "posts"); intuition congruence.
Qed.

Lemma later_than_spec t d :
  later_than t d = true <-> exists v, first_publication_date d = Some v /\ t < v.
Proof.
  unfold later_than. simpl. rewrite andb_true_r.
  destruct (first_publication_date d) as [v|].
  - rewrite Z.ltb_lt. split; [eauto|]. now intros (v' & [= <-] & H).
  - split; [discriminate|]. now intros (v' & [=] & _).
Qed.

Lemma earlier_than_spec t d :
  earlier_than t d = true <-> exists v, first_publication_date d = Some v /\ v < t.
Proof.
  unfold earlier_than. simpl. rewrite andb_true_r.
  destruct (first_publication_date d) as [v|].
  - rewrite Z.ltb_lt. split; [eauto|]. now intros (v' & [= <-] & H).
  - split; [discriminate|]. now intros (v' & [=] & _).
Qed.

Lemma plain_queries (response : Document) nq pq :
  PlainPage.nextPost_query response = Fulfilled nq ->
  PlainPage.prevPost_query response = Fulfilled pq ->
  exists t,
    first_publication_date response = Some t
    /\ (forall repo, hd_error (select repo nq)
          = hd_error (sort (precedes ascending) (filter (later_than t) (master repo))))
    /\ (forall repo, hd_error (select repo pq)
          = hd_error (sort (precedes descending) (filter (earlier_than t) (master repo)))).
Proof.
  unfold PlainPage.nextPost_query, PlainPage.prevPost_query.
  destruct (first_publication_date response) as [t|]; simpl; [|discriminate].
  intros [= <-] [= <-]. exists t. split; [reflexivity|].
  split; intros repo; unfold select; simpl; apply hd_error_firstn_1.
Qed.

End Neighbours.

Section NeighbourClaims.
Import Prismic.

Lemma plain_next_later repo t n :
  hd_error (sort (precedes ascending) (filter (later_than t) (master repo))) = Some n ->
  In n (master repo) /\ exists v, first_publication_date n = Some v /\ t < v.
Proof.
  intros H. apply hd_error_In, In_sort, filter_In in H.
  destruct H as [Hin H]. apply later_than_spec in H. auto.
Qed.

Lemma plain_prev_earlier repo t n :
  hd_error (sort (precedes descending) (filter (earlier_than t) (master repo))) = Some n ->
  In n (master repo) /\ exists v, first_publication_date n = Some v /\ v < t.
Proof.
  intros H. apply hd_error_In, In_sort, filter_In in H.
  destruct H as [Hin H]. apply earlier_than_spec in H. auto.
Qed.

Lemma preview_neighbour_pivot (repo : Repository) (o : Ordering) i n :
  hd_error (following i (sort (precedes o) (published_posts repo))) = Some n ->
  In n (published_posts repo)
  /\ exists c, In c (published_posts repo) /\ id c = i
               /\ precedes o c n = true.
Proof.
  intros H. apply hd_error_In in H. split.
  - apply following_In in H. now apply In_sort in H.
  - apply following_sorted with (leb := precedes o) in H.
    + destruct H as (c & Hc & Hi & Hr). exists c.
      apply In_sort in Hc. auto.
    + apply sort_sorted; [apply precedes_total | apply precedes_trans].
Qed.

Lemma preview_neighbour_other_id (repo : Repository) (o : Ordering) i n :
  NoDup (map id (master repo)) ->
  hd_error (following i (sort (precedes o) (published_posts repo))) = Some n ->
  id n <> i.
Proof.
  intros N H. apply hd_error_In in H.
  apply following_other_id in H; [exact H|].
  eapply Permutation_NoDup.
  - apply Permutation_map. symmetry. apply sort_perm.
  - unfold published_posts. now apply NoDup_map_filter.
Qed.

End NeighbourClaims.



Lemma timeline_ids : NoDup (map id (Prismic.master timeline)).
Proof. simpl. repeat constructor; simpl; intuition discriminate. Qed.

Lemma timeline_distinct_dates : distinct_dates timeline.
Proof.
  intros a b Ha Hb. simpl in Ha, Hb.
  destruct Ha as [<-|[<-|[<-|[]]]], Hb as [<-|[<-|[<-|[]]]];
    simpl; intros E; try reflexivity; discriminate E.
Qed.


(** On the page without preview support, when no document of the
    repository has a first publication date later than that of the
    fetched post, [nextPost] is [null]; when none has an earlier one,
    [prevPost] is [null]. *)
Lemma plain_no_neighbour_at_the_ends
    (repo : Prismic.Repository) (slug : string) (r : PlainPage.StaticProps) :
  PlainPage.getStaticProps repo slug = Fulfilled r ->
  let p := PlainPage.props r in
  ((forall d t t0,
       In d (Prismic.master repo) ->
       first_publication_date d = Some t ->
       first_publication_date (PlainPage.post p) = Some t0 -> t <= t0) ->
   PlainPage.nextPost p = None)
  /\ ((forall d t t0,
       In d (Prismic.master repo) ->
       first_publication_date d = Some t ->
       first_publication_date (PlainPage.post p) = Some t0 -> t0 <= t) ->
      PlainPage.prevPost p = None).
Proof.
  intros H. apply PlainPage_getStaticProps_inv in H.
  destruct H as (response & nq & pq & _ & Hn & Hp & ->).
  destruct (plain_queries _ _ _ Hn Hp) as (t0 & Ht & En & Ep).
  cbn zeta. simpl. rewrite En, Ep. split; intros L.
  - destruct (hd_error _) as [n|] eqn:E; [|reflexivity].
    apply plain_next_later in E. destruct E as (Hin & v & Hv & Hlt).
    specialize (L n v t0 Hin Hv Ht). lia.
  - destruct (hd_error _) as [n|] eqn:E; [|reflexivity].
    apply plain_prev_earlier in E. destruct E as (Hin & v & Hv & Hlt).
    specialize (L n v t0 Hin Hv Ht). lia.
Qed.

Lemma resolve_none (repo : Prismic.Repository) (slug : string) (r : option string) :
  (forall d, In d (Prismic.documents repo r) ->
             type d = "posts"%string -> uid d <> slug) ->
  resolve repo slug r = None.
Proof.
  intros H. unfold resolve.
  destruct (find _ _) as [d|] eqn:E; [|reflexivity].
  apply find_some in E. destruct E as [Hin E].
  apply andb_true_iff in E. destruct E as [Et Eu].
  apply String.eqb_eq in Et, Eu. now destruct (H d Hin Et).
Qed.

(** C7: a slug that no post of the repository carries as its uid makes
    the assembly fail: [getByUID] finds nothing, the page reads a
    property of the missing document and the promise is rejected; no
    props are returned.  On both pages. *)
Theorem missing_post_rejects
    (repo : Prismic.Repository) (slug : string)
    (preview : option bool) (previewData : option PreviewPage.PreviewData) :
  ((forall d, In d (Prismic.documents repo None) ->
              type d = "posts"%string -> uid d <> slug) ->
   PlainPage.getStaticProps repo slug
   = Rejected (undefined_property "first_publication_date")
   /\ forall r, PlainPage.getStaticProps repo slug <> Fulfilled r)
  /\ ((forall d, In d (Prismic.documents repo (preview_ref_of previewData)) ->
                 type d = "posts"%string -> uid d <> slug) ->
      PreviewPage.getStaticProps repo slug preview previewData
      = Rejected (undefined_property "id")
      /\ forall r,
           PreviewPage.getStaticProps repo slug preview previewData
           <> Fulfilled r).
Proof.
  split; intros H; apply resolve_none in H.
  - assert (E : PlainPage.getStaticProps repo slug
                = Rejected (undefined_property "first_publication_date")).
    { unfold PlainPage.getStaticProps. rewrite getByUID_resolve, H. reflexivity. }
    split; [exact E|]. intros r. rewrite E. discriminate.
  - assert (E : PreviewPage.getStaticProps repo slug preview previewData
                = Rejected (undefined_property "id")).
    { unfold PreviewPage.getStaticProps. fold (preview_ref_of previewData).
      rewrite getByUID_resolve, H. reflexivity. }
    split; [exact E|]. intros r. rewrite E. discriminate.
Qed.

Lemma missing_post_rejects_witness :
  PlainPage.getStaticProps timeline "nonexistent-uid"
  = Rejected (undefined_property "first_publication_date")
  /\ PreviewPage.getStaticProps timeline "nonexistent-uid" None None
     = Rejected (undefined_property "id").
Proof.
  split.
  - apply (proj1 (missing_post_rejects timeline "nonexistent-uid" None None)).
    intros d Hd _. simpl in Hd.
    destruct Hd as [<-|[<-|[<-|[]]]]; discriminate.
  - apply (proj2 (missing_post_rejects timeline "nonexistent-uid" None None)).
    intros d Hd _. simpl in Hd.
    destruct Hd as [<-|[<-|[<-|[]]]]; discriminate.
Defined.

Section Cursor.
Import Prismic.

Variable leb : Document -> Document -> bool.
Variable keep : Document -> bool.
Variable c : Document.

(** In a sorted list with unique ids, the documents after [c] are the
    ones a filter keeps, provided the filter keeps exactly what the order
    puts strictly after [c]. *)
Lemma following_is_filter (l : list Document) :
  StronglySorted (fun a b => leb a b = true) l ->
  NoDup (map id l) ->
  In c l ->
  keep c = false ->
  (forall y, In y l -> y <> c -> leb c y = true -> keep y = true) ->
  (forall y, In y l -> y <> c -> leb y c = true -> keep y = false) ->
  following (id c) l = filter keep l.
Proof.
  induction 1 as [|x l S IH F]; simpl; [tauto|].
  intros N Hc Kc After Before.
  inversion N as [|? ? Hx N']; subst.
  rewrite Forall_forall in F.
  destruct (String.eqb_spec (id x) (id c)) as [E|E].
  - assert (x = c) as ->.
    { destruct Hc as [Hc|Hc]; [exact Hc|].
      exfalso. apply Hx. rewrite E. now apply in_map. }
    rewrite Kc. symmetry. apply forallb_filter_id.
    apply forallb_forall. intros y Hy. apply After; auto.
    intros ->. apply Hx. now apply in_map.
  - destruct Hc as [Hc|Hc]; [congruence|].
    assert (Kx : keep x = false).
    { apply Before; [now left | congruence | now apply F]. }
    rewrite Kx. apply IH; auto.
Qed.

End Cursor.

Section Agreement.
Import Prismic.

Variable repo : Repository.
Hypothesis ids : NoDup (map id (master repo)).
Hypothesis posts : all_dated_posts repo.
Hypothesis distinct : distinct_dates repo.

Lemma published_posts_all : published_posts repo = master repo.
Proof.
  unfold published_posts. apply forallb_filter_id.
  apply forallb_forall. intros d Hd. simpl.
  destruct (posts d Hd) as [-> _]. reflexivity.
Qed.

Lemma other_date (c y : Document) :
  In c (master repo) -> In y (master repo) -> y <> c ->
  first_publication_date y <> first_publication_date c.
Proof.
  intros Hc Hy Ne E. apply Ne. apply distinct; auto.
  all: rewrite published_posts_all; assumption.
Qed.

Lemma sorted_ids (o : Ordering) : NoDup (map id (sort (precedes o) (master repo))).
Proof.
  eapply Permutation_NoDup; [|exact ids].
  apply Permutation_map. symmetry. apply sort_perm.
Qed.

Lemma cursor_is_date_after (c : Document) (t : timestamp) :
  In c (master repo) -> first_publication_date c = Some t ->
  following (id c) (sort (precedes ascending) (published_posts repo))
  = sort (precedes ascending) (filter (later_than t) (master repo)).
Proof.
  intros Hc Ht. rewrite published_posts_all.
  rewrite sort_filter by (apply precedes_total || apply precedes_trans).
  apply following_is_filter with (leb := precedes ascending).
  - apply sort_sorted; [apply precedes_total | apply precedes_trans].
  - apply sorted_ids.
  - now apply In_sort.
  - unfold later_than. simpl. rewrite Ht, Z.ltb_irrefl. reflexivity.
  - intros y Hy Ne L. apply In_sort in Hy.
    pose proof (other_date c y Hc Hy Ne) as D.
    unfold precedes in L. simpl in L. rewrite Ht in L, D.
    apply later_than_spec.
    destruct (first_publication_date y) as [v|]; simpl in L; [|discriminate].
    exists v. split; [reflexivity|]. apply Z.leb_le in L.
    assert (v <> t) by congruence. lia.
  - intros y Hy Ne L. apply In_sort in Hy.
    unfold precedes in L. simpl in L. rewrite Ht in L.
    unfold later_than. simpl. rewrite andb_true_r.
    destruct (first_publication_date y) as [v|]; simpl in L; [|reflexivity].
    apply Z.leb_le in L. apply Z.ltb_ge. exact L.
Qed.

Lemma cursor_is_date_before (c : Document) (t : timestamp) :
  In c (master repo) -> first_publication_date c = Some t ->
  following (id c) (sort (precedes descending) (published_posts repo))
  = sort (precedes descending) (filter (earlier_than t) (master repo)).
Proof.
  intros Hc Ht. rewrite published_posts_all.
  rewrite sort_filter by (apply precedes_total || apply precedes_trans).
  apply following_is_filter with (leb := precedes descending).
  - apply sort_sorted; [apply precedes_total | apply precedes_trans].
  - apply sorted_ids.
  - now apply In_sort.
  - unfold earlier_than. simpl. rewrite Ht, Z.ltb_irrefl. reflexivity.
  - intros y Hy Ne L. apply In_sort in Hy.
    pose proof (other_date c y Hc Hy Ne) as D.
    destruct (posts y Hy) as [_ Dy].
    unfold precedes in L. simpl in L. rewrite Ht in L, D.
    apply earlier_than_spec.
    destruct (first_publication_date y) as [v|]; simpl in L; [|congruence].
    exists v. split; [reflexivity|]. apply Z.leb_le in L.
    assert (v <> t) by congruence. lia.
  - intros y Hy Ne L. apply In_sort in Hy.
    unfold precedes in L. simpl in L. rewrite Ht in L.
    unfold earlier_than. simpl. rewrite andb_true_r.
    destruct (first_publication_date y) as [v|]; simpl in L; [|discriminate].
    apply Z.leb_le in L. apply Z.ltb_ge. exact L.
Qed.

Lemma resolve_In (slug : string) (r : option string) (c : Document) :
  resolve repo slug r = Some c -> In c (documents repo r).
Proof. unfold resolve. intros H. now apply find_some in H. Qed.

End Agreement.

(** C5, as stated, fails: every document of [blog] is a post and ids are
    unique, yet for A, which shares its first publication date with B,
    the page with preview support (preview inactive) assembles B as
    [nextPost] and as [prevPost], and the page without preview support
    assembles C and D. *)
Lemma pages_disagree_on_tied_dates :
  exists a b,
    PreviewPage.getStaticProps blog "A" None None = Fulfilled a
    /\ PlainPage.getStaticProps blog "A" = Fulfilled b
    /\ option_map id (PreviewPage.nextPost (PreviewPage.props a)) = Some "B"%string
    /\ option_map id (PlainPage.nextPost (PlainPage.props b)) = Some "C"%string
    /\ option_map id (PreviewPage.prevPost (PreviewPage.props a)) = Some "B"%string
    /\ option_map id (PlainPage.prevPost (PlainPage.props b)) = Some "D"%string
    /\ ~ same_assembly (PreviewPage.getStaticProps blog "A" None None)
                       (PlainPage.getStaticProps blog "A").
Proof.
  eexists. eexists. split; [reflexivity|]. split; [reflexivity|].
  repeat (split; [reflexivity|]).
  simpl. intros (_ & H & _). discriminate H.
Qed.

(** C5, amended: with preview mode inactive, in a repository whose
    document ids are unique, whose documents are all posts with a first
    publication date, and where no two posts share that date, the two
    pages settle alike for every slug: both fail, or both return the
    same [post], [nextPost], [prevPost] and [wasEdited]. *)
Theorem pages_agree_without_preview
    (repo : Prismic.Repository) (slug : string) (preview : option bool) :
  NoDup (map id (Prismic.master repo)) ->
  all_dated_posts repo ->
  distinct_dates repo ->
  same_assembly (PreviewPage.getStaticProps repo slug preview None)
                (PlainPage.getStaticProps repo slug).
Proof.
  intros ids posts distinct.
  destruct (resolve repo slug None) as [c|] eqn:E.
  - pose proof (resolve_In repo slug None c E) as Hc. simpl in Hc.
    destruct (posts c Hc) as [_ Dc].
    destruct (first_publication_date c) as [t|] eqn:Ht; [|congruence].
    unfold PreviewPage.getStaticProps, PlainPage.getStaticProps.
    rewrite !getByUID_resolve. cbn [bind]. rewrite E. cbn [bind].
    unfold PlainPage.nextPost_query, PlainPage.prevPost_query.
    rewrite Ht. cbn [Prismic.Predicates.dateAfter Prismic.Predicates.dateBefore bind].
    unfold Prismic.query. cbn [bind same_assembly].
    cbn [PreviewPage.props PlainPage.props PreviewPage.post PlainPage.post
         PreviewPage.nextPost PlainPage.nextPost PreviewPage.prevPost
         PlainPage.prevPost PreviewPage.wasEdited PlainPage.wasEdited
         Prismic.results].
    split; [reflexivity|].
    rewrite preview_next_select, preview_prev_select.
    rewrite (cursor_is_date_after repo ids posts distinct c t Hc Ht).
    rewrite (cursor_is_date_before repo ids posts distinct c t Hc Ht).
    split; [|split; [|reflexivity]].
    + unfold Prismic.select. simpl. symmetry. apply hd_error_firstn_1.
    + unfold Prismic.select. simpl. symmetry. apply hd_error_firstn_1.
  - unfold PreviewPage.getStaticProps, PlainPage.getStaticProps.
    rewrite !getByUID_resolve. cbn [bind]. rewrite E. exact I.
Qed.

Lemma timeline_all_dated_posts : all_dated_posts timeline.
Proof.
  intros d Hd. simpl in Hd.
  destruct Hd as [<-|[<-|[<-|[]]]]; simpl; split; (reflexivity || discriminate).
Qed.

Lemma pages_agree_without_preview_witness :
  same_assembly (PreviewPage.getStaticProps timeline "B" None None)
                (PlainPage.getStaticProps timeline "B")
  /\ exists a,
       PreviewPage.getStaticProps timeline "B" None None = Fulfilled a
       /\ option_map id (PreviewPage.nextPost (PreviewPage.props a)) = Some "C"%string
       /\ option_map id (PreviewPage.prevPost (PreviewPage.props a)) = Some "A"%string.
Proof.
  split.
  - exact (pages_agree_without_preview timeline "B" None
             timeline_ids timeline_all_dated_posts timeline_distinct_dates).
  - eexists. split; [reflexivity|]. split; reflexivity.
Defined.

(** Every neighbour query asks for one document; the queries of the page
    with preview support carry the predicate on the document type, those
    of the page without preview support carry the date predicate only. *)
Lemma neighbour_queries_page_size (response : Document) :
  Prismic.pageSize (Prismic.options (PreviewPage.nextPost_query response)) = 1%nat
  /\ Prismic.pageSize (Prismic.options (PreviewPage.prevPost_query response)) = 1%nat
  /\ (forall q, PlainPage.nextPost_query response = Fulfilled q ->
                Prismic.pageSize (Prismic.options q) = 1%nat)
  /\ (forall q, PlainPage.prevPost_query response = Fulfilled q ->
                Prismic.pageSize (Prismic.options q) = 1%nat).
Proof.
  split; [reflexivity|]. split; [reflexivity|].
  unfold PlainPage.nextPost_query, PlainPage.prevPost_query.
  destruct (first_publication_date response); simpl;
    split; intros q [= <-]; reflexivity.
Qed.

Lemma preview_queries_restricted_to_posts (response : Document) :
  In (Prismic.At Prismic.document_type "posts")
     (Prismic.predicates (PreviewPage.nextPost_query response))
  /\ In (Prismic.At Prismic.document_type "posts")
        (Prismic.predicates (PreviewPage.prevPost_query response)).
Proof. split; now left. Qed.

Lemma plain_queries_not_restricted_to_posts (response : Document) :
  (forall q, PlainPage.nextPost_query response = Fulfilled q ->
             ~ In (Prismic.At Prismic.document_type "posts") (Prismic.predicates q))
  /\ (forall q, PlainPage.prevPost_query response = Fulfilled q ->
                ~ In (Prismic.At Prismic.document_type "posts") (Prismic.predicates q)).
Proof.
  unfold PlainPage.nextPost_query, PlainPage.prevPost_query.
  destruct (first_publication_date response); simpl;
    split; intros q [= <-]; simpl; intros [H|[]]; discriminate H.
Qed.

(** C4: the page without preview support asks for the neighbours with a
    date predicate alone: for post A of [mixed] it issues a query for one
    document whose only predicate is the date, and it assembles the page
    document "about" as [nextPost]; the page with preview support, whose
    queries carry the predicate on the document type, assembles none. *)
Theorem plain_page_neighbour_of_other_type :
  Prismic.master mixed
  = [sample_post "A" 10 10;
     sample_document "about" "page" (Some 20) (Some 20) []]
  /\ PlainPage.nextPost_query (sample_post "A" 10 10)
     = Fulfilled
         {| Prismic.predicates :=
              [Prismic.DateAfter Prismic.document_first_publication_date 10];
            Prismic.options :=
              {| Prismic.ref := None; Prismic.pageSize := 1;
                 Prismic.after := None;
                 Prismic.orderings := Some ascending |} |}
  /\ (exists r n,
        PlainPage.getStaticProps mixed "A" = Fulfilled r
        /\ PlainPage.nextPost (PlainPage.props r) = Some n
        /\ id n = "about"%string /\ type n = "page"%string)
  /\ (exists r,
        PreviewPage.getStaticProps mixed "A" None None = Fulfilled r
        /\ PreviewPage.nextPost (PreviewPage.props r) = None).
Proof.
  split; [reflexivity|]. split; [reflexivity|]. split.
  - eexists. eexists. split; [reflexivity|]. repeat split.
  - eexists. split; reflexivity.
Qed.


(* ================================================================== *)
(** * Further properties of the word count *)

Section Pieces.
Import JsString.

Lemma tail_ends_in_word (x : code_unit) (r : t) :
  (exists u c, x :: r = u ++ [c] /\ in_word c) ->
  r = [] \/ exists u c, r = u ++ [c] /\ in_word c.
Proof.
  intros (u & c & E & Hc). destruct r as [|y r]; [now left|]. right.
  destruct u as [|z u]; simpl in E.
  - discriminate E.
  - injection E as _ E. exists u, c. auto.
Qed.

(** No piece of a split holds white space. *)
Lemma split_pieces_in_word (s : t) :
  (forall piece, Forall in_word piece ->
                 Forall (Forall in_word) (split_piece piece s))
  /\ Forall (Forall in_word) (split_run s).
Proof.
  induction s as [|c r [IHp IHr]]; simpl.
  - split; [intros piece F|]; repeat constructor. now apply Forall_rev.
  - destruct (is_white_space c) eqn:E.
    + split; [intros piece F|]; [|exact IHr].
      constructor; [now apply Forall_rev | exact IHr].
    + split; [intros piece F|]; apply IHp; repeat constructor; assumption.
Qed.

(** On a text that ends inside a word, every piece after a non-empty
    open piece is non-empty. *)
Lemma split_pieces_nonempty (s : t) :
  (s = [] \/ exists u c, s = u ++ [c] /\ in_word c) ->
  (forall piece, piece <> [] -> Forall (fun w => w <> []) (split_piece piece s))
  /\ (s <> [] -> Forall (fun w => w <> []) (split_run s)).
Proof.
  induction s as [|x r IH]; intros Hs.
  - split; [intros piece Hp|congruence]. simpl. repeat constructor.
    intros E. apply Hp. rewrite <- (rev_involutive piece), E. reflexivity.
  - destruct Hs as [Hs|Hs]; [discriminate Hs|].
    pose proof (tail_ends_in_word x r Hs) as Hr.
    destruct (IH Hr) as [IHp IHr]. simpl.
    destruct (is_white_space x) eqn:E.
    + assert (Nr : r <> []).
      { destruct Hs as (u & c & Eu & Hc). intros ->.
        destruct u as [|z u]; simpl in Eu.
        - injection Eu as ->. unfold in_word in Hc. congruence.
        - injection Eu as _ Eu. destruct u; discriminate Eu. }
      split; [intros piece Hp|intros _]; [|now apply IHr].
      constructor; [|now apply IHr].
      intros E'. apply Hp. rewrite <- (rev_involutive piece), E'. reflexivity.
    + split; [intros piece Hp|intros _]; apply IHp; discriminate.
Qed.

(** A trimmed text is empty, or starts and ends inside a word. *)
Lemma trim_shape (s : t) :
  trim s = []
  \/ exists x r,
       trim s = x :: r /\ in_word x
       /\ (r = [] \/ exists u c, r = u ++ [c] /\ in_word c).
Proof.
  destruct (trimEnd_last (trimStart s)) as [E|(u & c & E & Hc)];
    fold (trim s) in E; [now left|]. right.
  destruct (trimEnd_suffix (trimStart s)) as (w & Ew & _).
  fold (trim s) in Ew.
  destruct (trim s) as [|x r] eqn:Et; [destruct u; discriminate E|].
  exists x, r. split; [reflexivity|]. split.
  - destruct (trimStart_head s) as [E0|(y & r0 & E0 & Hy)]; rewrite E0 in Ew.
    + discriminate Ew.
    + simpl in Ew. injection Ew as -> _. exact Hy.
  - apply (tail_ends_in_word x r). exists u, c. auto.
Qed.

Lemma words_app_space (b : bool) (a rest : t) :
  count_words_from b (a ++ [32%N] ++ rest)
  = (count_words_from b a + count_words rest)%nat.
Proof.
  revert b. induction a as [|c a IH]; intros b; simpl.
  - reflexivity.
  - destruct (is_white_space c); rewrite IH; [reflexivity|].
    destruct b; simpl; reflexivity.
Qed.

Lemma asText_words (fragments : list Span) :
  count_words (RichText.asText fragments)
  = list_sum (map (fun f => count_words (text f)) fragments).
Proof.
  unfold RichText.asText.
  induction fragments as [|f l IH]; [reflexivity|].
  destruct l as [|g l].
  - simpl. now rewrite Nat.add_0_r.
  - change (map text (f :: g :: l)) with (text f :: map text (g :: l)).
    change (join [32%N] (text f :: map text (g :: l)))
      with (text f ++ [32%N] ++ join [32%N] (map text (g :: l))).
    unfold count_words at 1. rewrite words_app_space.
    rewrite IH. reflexivity.
Qed.

End Pieces.

(** X9: every element of the words array of a block is free of white
    space, and none is empty unless the block has no word at all, in
    which case the array is the single empty piece. *)
Theorem wordsArray_pieces_are_words (c : Content) (w : JsString.t) :
  In w (wordsArray c) ->
  Forall in_word w /\ (w = [] -> wordsArray c = [[]]).
Proof.
  unfold wordsArray, JsString.split_ws. intros H. split.
  - pose proof (proj1 (split_pieces_in_word
                         (JsString.trim (RichText.asText (body c)))) []
                      (Forall_nil _)) as F.
    rewrite Forall_forall in F. now apply F.
  - intros ->.
    destruct (trim_shape (RichText.asText (body c)))
      as [E|(x & r & E & Hx & Hr)]; rewrite E in *; [reflexivity|].
    exfalso. simpl in H. unfold in_word in Hx. rewrite Hx in H.
    pose proof (proj1 (split_pieces_nonempty r Hr) [x]) as F.
    rewrite Forall_forall in F. apply (F ltac:(discriminate) [] H). reflexivity.
Qed.

Lemma wordsArray_pieces_are_words_witness :
  Forall in_word [119%N; 111%N]
  /\ wordsArray (sample_block " ") = [[]].
Proof.
  split.
  - apply (wordsArray_pieces_are_words (sample_block " wo  rd ") [119%N; 111%N]).
    simpl. left. reflexivity.
  - apply (wordsArray_pieces_are_words (sample_block " ") []).
    + simpl. left. reflexivity.
    + reflexivity.
Defined.

(** X10: the count of a block is the sum of the words of its body
    fragments, and 1 when no fragment holds a word: fragments are joined
    by a space, so no word runs over two fragments. *)
Theorem block_count_adds_fragments (c : Content) :
  List.length (wordsArray c) = Nat.max 1 (fragment_words c).
Proof.
  unfold wordsArray, fragment_words.
  rewrite pieces_are_words, asText_words. reflexivity.
Qed.

(** X11: the reading time lies between 0 and the word count, and it is 0
    exactly for a post without content blocks. *)
Theorem readingTime_zero_iff_no_content (post : Document) :
  0 <= readingTime post <= wordsCount post
  /\ (readingTime post = 0 <-> content (data post) = []).
Proof.
  pose proof (Math_ceil_div_bounds (wordsCount post) 200) as B.
  fold (readingTime post) in B.
  pose proof (total_pieces_ge_length (content (data post))) as L.
  rewrite <- wordsCount_total in L.
  assert (0 <= wordsCount post) by lia.
  split; [lia|]. split.
  - intros Z0. destruct (content (data post)) as [|c l]; [reflexivity|].
    simpl List.length in L. lia.
  - intros E. unfold readingTime, wordsCount. rewrite E. reflexivity.
Qed.

(* ================================================================== *)
(** * Further properties of the assembly *)

Section FirstOfOrder.
Import Prismic.

Variable leb : Document -> Document -> bool.
Hypothesis leb_total : forall a b, leb a b = true \/ leb b a = true.
Hypothesis leb_trans :
  forall a b c, leb a b = true -> leb b c = true -> leb a c = true.

Lemma leb_refl (a : Document) : leb a a = true.
Proof. destruct (leb_total a a); assumption. Qed.

(** The first document of an ordered list precedes every other one. *)
Lemma hd_sort_least (l : list Document) (n d : Document) :
  hd_error (sort leb l) = Some n -> In d l -> leb n d = true.
Proof.
  intros H Hd.
  pose proof (sort_sorted leb leb_total leb_trans l) as S.
  apply (In_sort leb) in Hd.
  destruct (sort leb l) as [|x r]; [discriminate H|].
  simpl in H. injection H as ->.
  inversion S as [|? ? _ F]; subst. rewrite Forall_forall in F.
  destruct Hd as [<-|Hd]; [apply leb_refl | now apply F].
Qed.

Lemma hd_sort_none (l : list Document) :
  hd_error (sort leb l) = None -> l = [].
Proof.
  intros H. pose proof (sort_perm leb l) as P.
  destruct (sort leb l); [|discriminate H].
  now apply Permutation_nil in P.
Qed.

(** The document right after the cursor: every document of the list is
    at or before the cursor's document, or at or after that one. *)
Lemma following_hd_adjacent (cursor : string) (l : list Document) (n : Document) :
  StronglySorted (fun a b => leb a b = true) l ->
  hd_error (following cursor l) = Some n ->
  exists c, In c l /\ id c = cursor /\ leb c n = true
            /\ forall d, In d l -> leb d c = true \/ leb n d = true.
Proof.
  induction 1 as [|y l S IH F]; simpl; [discriminate|].
  rewrite Forall_forall in F.
  destruct (String.eqb_spec (id y) cursor) as [E|E]; intros H.
  - destruct l as [|n' rest]; [discriminate H|].
    simpl in H. injection H as ->.
    exists y. split; [now left|]. split; [exact E|].
    split; [apply F; now left|].
    intros d [<-|[<-|Hd]].
    + left. apply leb_refl.
    + right. apply leb_refl.
    + right. inversion S as [|? ? _ F']; subst.
      rewrite Forall_forall in F'. now apply F'.
  - destruct (IH H) as (c & Hc & Hi & Hr & Hall).
    exists c. split; [now right|]. split; [exact Hi|]. split; [exact Hr|].
    intros d [<-|Hd]; [left; now apply F | now apply Hall].
Qed.

End FirstOfOrder.

Section Lookup.
Import Prismic.

Lemma resolve_some (repo : Repository) (slug : string) (r : option string)
    (c : Document) :
  resolve repo slug r = Some c ->
  In c (documents repo r) /\ type c = "posts"%string /\ uid c = slug.
Proof.
  unfold resolve. intros H. apply find_some in H. destruct H as [Hin H].
  apply andb_true_iff in H. destruct H as [Ht Hu].
  apply String.eqb_eq in Ht, Hu. auto.
Qed.

Lemma resolve_exists (repo : Repository) (slug : string) (r : option string)
    (d : Document) :
  In d (documents repo r) -> type d = "posts"%string -> uid d = slug ->
  exists c, resolve repo slug r = Some c.
Proof.
  intros Hin Ht Hu. unfold resolve.
  destruct (find _ _) as [c|] eqn:E; [now exists c|].
  apply (find_none _ _ E) in Hin. rewrite Ht, Hu in Hin.
  rewrite !String.eqb_refl in Hin. discriminate Hin.
Qed.

(** With unique uids, a post is what its own uid resolves to. *)
Lemma resolve_own_uid (repo : Repository) (d : Document) :
  unique_uids repo -> In d (master repo) -> type d = "posts"%string ->
  resolve repo (uid d) None = Some d.
Proof.
  intros U Hin Ht.
  destruct (resolve_exists repo (uid d) None d Hin Ht eq_refl) as (c & E).
  rewrite E. f_equal.
  apply resolve_some in E. destruct E as (Hc & _ & Hu).
  apply (NoDup_map_inj uid (master repo)); auto.
Qed.

Lemma PreviewPage_fulfilled (repo : Repository) (slug : string)
    (preview : option bool) (previewData : option PreviewPage.PreviewData)
    (c : Document) :
  resolve repo slug (preview_ref_of previewData) = Some c ->
  exists r, PreviewPage.getStaticProps repo slug preview previewData = Fulfilled r
            /\ PreviewPage.post (PreviewPage.props r) = c.
Proof.
  intros E. unfold PreviewPage.getStaticProps.
  fold (preview_ref_of previewData). rewrite getByUID_resolve, E.
  eexists. split; reflexivity.
Qed.

Lemma PlainPage_fulfilled (repo : Repository) (slug : string)
    (c : Document) (t : timestamp) :
  resolve repo slug None = Some c ->
  first_publication_date c = Some t ->
  exists r, PlainPage.getStaticProps repo slug = Fulfilled r
            /\ PlainPage.props r
               = {| PlainPage.post := c;
                    PlainPage.nextPost :=
                      hd_error (sort (precedes ascending)
                                  (filter (later_than t) (master repo)));
                    PlainPage.prevPost :=
                      hd_error (sort (precedes descending)
                                  (filter (earlier_than t) (master repo)));
                    PlainPage.wasEdited :=
                      truthy (compareAsc
                                (JsDate.new_Date (last_publication_date c))
                                (JsDate.new_Date (first_publication_date c))) |}.
Proof.
  intros E Ht. unfold PlainPage.getStaticProps.
  rewrite getByUID_resolve, E. cbn [bind].
  unfold PlainPage.nextPost_query, PlainPage.prevPost_query. rewrite Ht.
  cbn [Predicates.dateAfter Predicates.dateBefore bind query].
  eexists. split; [reflexivity|]. cbn [PlainPage.props results].
  unfold select.
  cbn [options predicates pageSize ref after orderings order_by
       after_cursor documents].
  rewrite !hd_error_firstn_1. reflexivity.
Qed.

End Lookup.

(** X1: the post that a fulfilled assembly returns is a document of type
    "posts" whose uid is the requested slug, taken from the master ref on
    the page without preview support and from the ref of the preview
    session, when there is one, on the page with preview support; the
    [preview] prop repeats the preview flag of the context ([false] when
    absent) and the page is revalidated after 300 seconds. *)
Theorem assembled_post_is_the_requested_one
    (repo : Prismic.Repository) (slug : string)
    (preview : option bool) (previewData : option PreviewPage.PreviewData) :
  (forall r,
      PlainPage.getStaticProps repo slug = Fulfilled r ->
      let p := PlainPage.post (PlainPage.props r) in
      uid p = slug /\ type p = "posts"%string
      /\ In p (Prismic.master repo)
      /\ PlainPage.revalidate r = 300)
  /\ (forall r,
      PreviewPage.getStaticProps repo slug preview previewData = Fulfilled r ->
      let p := PreviewPage.post (PreviewPage.props r) in
      uid p = slug /\ type p = "posts"%string
      /\ In p (Prismic.documents repo (preview_ref_of previewData))
      /\ PreviewPage.preview (PreviewPage.props r)
         = match preview with Some b => b | None => false end
      /\ PreviewPage.revalidate r = 300).
Proof.
  split; intros r H.
  - unfold PlainPage.getStaticProps in H. rewrite getByUID_resolve in H.
    cbn [bind] in H.
    destruct (resolve repo slug None) as [c|] eqn:E; [|discriminate H].
    destruct (PlainPage.nextPost_query c); [|discriminate H].
    destruct (PlainPage.prevPost_query c); [|discriminate H].
    cbn in H. injection H as <-. cbn.
    apply resolve_some in E. destruct E as (Hin & Ht & Hu). auto.
  - unfold PreviewPage.getStaticProps in H.
    fold (preview_ref_of previewData) in H. rewrite getByUID_resolve in H.
    cbn [bind] in H.
    destruct (resolve repo slug (preview_ref_of previewData)) as [c|] eqn:E;
      [|discriminate H].
    cbn in H. injection H as <-. cbn.
    apply resolve_some in E. destruct E as (Hin & Ht & Hu). auto.
Qed.

Lemma assembled_post_is_the_requested_one_witness :
  (exists r, PlainPage.getStaticProps timeline "B" = Fulfilled r
             /\ uid (PlainPage.post (PlainPage.props r)) = "B"%string)
  /\ (exists r, PreviewPage.getStaticProps previewed "N" (Some true)
                  preview_session
                = Fulfilled r
                /\ uid (PreviewPage.post (PreviewPage.props r)) = "N"%string).
Proof.
  split; eexists; (split; [reflexivity|]).
  - apply (proj1 (assembled_post_is_the_requested_one timeline "B" None None)).
    reflexivity.
  - apply (proj2 (assembled_post_is_the_requested_one previewed "N"
                    (Some true) preview_session)).
    reflexivity.
Defined.

(** X2: the assembly of the page with preview support is fulfilled
    exactly when some document of type "posts" at the ref in use carries
    the slug as its uid; the same holds for the page without preview
    support on the master ref, when every post there has a first
    publication date. *)
Theorem assembly_fulfilled_iff_post_exists
    (repo : Prismic.Repository) (slug : string)
    (preview : option bool) (previewData : option PreviewPage.PreviewData) :
  ((exists r,
       PreviewPage.getStaticProps repo slug preview previewData = Fulfilled r)
   <-> exists d, In d (Prismic.documents repo (preview_ref_of previewData))
                 /\ type d = "posts"%string /\ uid d = slug)
  /\ ((forall d, In d (Prismic.master repo) -> type d = "posts"%string ->
                 first_publication_date d <> None) ->
      ((exists r, PlainPage.getStaticProps repo slug = Fulfilled r)
       <-> exists d, In d (Prismic.master repo)
                     /\ type d = "posts"%string /\ uid d = slug)).
Proof.
  split; [|intros Dated]; split.
  - intros (r & H). apply PreviewPage_getStaticProps_inv in H.
    destruct H as (c & E & _). exists c. now apply resolve_some in E.
  - intros (d & Hin & Ht & Hu).
    destruct (resolve_exists repo slug _ d Hin Ht Hu) as (c & E).
    destruct (PreviewPage_fulfilled repo slug preview previewData c E)
      as (r & H & _).
    now exists r.
  - intros (r & H). apply PlainPage_getStaticProps_inv in H.
    destruct H as (c & nq & pq & E & _). exists c. now apply resolve_some in E.
  - intros (d & Hin & Ht & Hu).
    destruct (resolve_exists repo slug None d Hin Ht Hu) as (c & E).
    pose proof (resolve_some repo slug None c E) as (Hc & Htc & _).
    destruct (first_publication_date c) as [t|] eqn:Hd;
      [|now destruct (Dated c Hc Htc)].
    destruct (PlainPage_fulfilled repo slug c t E Hd) as (r & H & _).
    now exists r.
Qed.

Lemma assembly_fulfilled_iff_post_exists_witness :
  (exists r, PreviewPage.getStaticProps timeline "C" None None = Fulfilled r)
  /\ (exists r, PlainPage.getStaticProps timeline "C" = Fulfilled r).
Proof.
  split.
  - apply (proj1 (assembly_fulfilled_iff_post_exists timeline "C" None None)).
    exists (sample_post "C" 30 31). simpl. auto.
  - apply (proj2 (assembly_fulfilled_iff_post_exists timeline "C" None None)).
    + intros d Hd _. simpl in Hd.
      destruct Hd as [<-|[<-|[<-|[]]]]; discriminate.
    + exists (sample_post "C" 30 31). simpl. auto.
Defined.

(** The first document later than [t] in ascending order is the nearest
    later one, and the first earlier one in descending order the nearest
    earlier one. *)
Lemma first_later_is_nearest (repo : Prismic.Repository) (t : timestamp) :
  match hd_error (Prismic.sort (Prismic.precedes ascending)
                    (filter (later_than t) (Prismic.master repo))) with
  | Some n =>
      In n (Prismic.master repo)
      /\ exists v, first_publication_date n = Some v /\ t < v
           /\ forall d w, In d (Prismic.master repo) ->
                          first_publication_date d = Some w ->
                          t < w -> v <= w
  | None =>
      forall d w, In d (Prismic.master repo) ->
                  first_publication_date d = Some w -> w <= t
  end.
Proof.
  destruct (hd_error _) as [n|] eqn:E.
  - pose proof (plain_next_later _ _ _ E) as (Hin & v & Hv & Hlt).
    split; [exact Hin|]. exists v. split; [exact Hv|]. split; [exact Hlt|].
    intros d w Hd Hw Hlt'.
    assert (L : Prismic.precedes ascending n d = true).
    { eapply hd_sort_least; eauto using precedes_total, precedes_trans.
      apply filter_In. split; [exact Hd|]. apply later_than_spec. eauto. }
    unfold Prismic.precedes in L. simpl in L. rewrite Hv, Hw in L.
    now apply Z.leb_le in L.
  - intros d w Hd Hw. apply hd_sort_none in E.
    destruct (Z.le_gt_cases w t) as [L|L]; [exact L|]. exfalso.
    assert (Hf : In d (filter (later_than t) (Prismic.master repo))).
    { apply filter_In. split; [exact Hd|]. apply later_than_spec.
      exists w. split; [exact Hw | lia]. }
    rewrite E in Hf. exact Hf.
Qed.

Lemma first_earlier_is_nearest (repo : Prismic.Repository) (t : timestamp) :
  match hd_error (Prismic.sort (Prismic.precedes descending)
                    (filter (earlier_than t) (Prismic.master repo))) with
  | Some m =>
      In m (Prismic.master repo)
      /\ exists v, first_publication_date m = Some v /\ v < t
           /\ forall d w, In d (Prismic.master repo) ->
                          first_publication_date d = Some w ->
                          w < t -> w <= v
  | None =>
      forall d w, In d (Prismic.master repo) ->
                  first_publication_date d = Some w -> t <= w
  end.
Proof.
  destruct (hd_error _) as [m|] eqn:E.
  - pose proof (plain_prev_earlier _ _ _ E) as (Hin & v & Hv & Hlt).
    split; [exact Hin|]. exists v. split; [exact Hv|]. split; [exact Hlt|].
    intros d w Hd Hw Hlt'.
    assert (L : Prismic.precedes descending m d = true).
    { eapply hd_sort_least; eauto using precedes_total, precedes_trans.
      apply filter_In. split; [exact Hd|]. apply earlier_than_spec. eauto. }
    unfold Prismic.precedes in L. simpl in L. rewrite Hv, Hw in L.
    now apply Z.leb_le in L.
  - intros d w Hd Hw. apply hd_sort_none in E.
    destruct (Z.le_gt_cases t w) as [L|L]; [exact L|]. exfalso.
    assert (Hf : In d (filter (earlier_than t) (Prismic.master repo))).
    { apply filter_In. split; [exact Hd|]. apply earlier_than_spec.
      exists w. split; [exact Hw | lia]. }
    rewrite E in Hf. exact Hf.
Qed.

(** X3: on the page without preview support [nextPost] is the nearest
    later document of the master ref: its first publication date is
    strictly after that of the post and no document with a date after the
    post's has an earlier one; it is absent exactly when no document is
    later.  [prevPost] is the nearest earlier document in the same way. *)
Theorem plain_neighbours_are_nearest
    (repo : Prismic.Repository) (slug : string) (r : PlainPage.StaticProps) :
  PlainPage.getStaticProps repo slug = Fulfilled r ->
  exists t,
    first_publication_date (PlainPage.post (PlainPage.props r)) = Some t
    /\ match PlainPage.nextPost (PlainPage.props r) with
       | Some n =>
           In n (Prismic.master repo)
           /\ exists v, first_publication_date n = Some v /\ t < v
                /\ forall d w, In d (Prismic.master repo) ->
                               first_publication_date d = Some w ->
                               t < w -> v <= w
       | None =>
           forall d w, In d (Prismic.master repo) ->
                       first_publication_date d = Some w -> w <= t
       end
    /\ match PlainPage.prevPost (PlainPage.props r) with
       | Some m =>
           In m (Prismic.master repo)
           /\ exists v, first_publication_date m = Some v /\ v < t
                /\ forall d w, In d (Prismic.master repo) ->
                               first_publication_date d = Some w ->
                               w < t -> w <= v
       | None =>
           forall d w, In d (Prismic.master repo) ->
                       first_publication_date d = Some w -> t <= w
       end.
Proof.
  intros H. apply PlainPage_getStaticProps_inv in H.
  destruct H as (c & nq & pq & _ & Hn & Hp & ->).
  destruct (plain_queries _ _ _ Hn Hp) as (t & Ht & En & Ep).
  exists t. split; [exact Ht|]. cbn. rewrite En, Ep. split.
  - apply first_later_is_nearest.
  - apply first_earlier_is_nearest.
Qed.

Lemma plain_neighbours_are_nearest_witness :
  exists r t,
    PlainPage.getStaticProps timeline "B" = Fulfilled r
    /\ first_publication_date (PlainPage.post (PlainPage.props r)) = Some t.
Proof.
  eexists.
  destruct (plain_neighbours_are_nearest timeline "B" _ eq_refl) as (t & Ht & _).
  exists t. split; [reflexivity | exact Ht].
Defined.

Lemma preview_neighbour_published
    (repo : Prismic.Repository) (slug : string)
    (preview : option bool) (previewData : option PreviewPage.PreviewData)
    (r : PreviewPage.StaticProps) (n : Document) :
  PreviewPage.getStaticProps repo slug preview previewData = Fulfilled r ->
  PreviewPage.nextPost (PreviewPage.props r) = Some n
  \/ PreviewPage.prevPost (PreviewPage.props r) = Some n ->
  In n (published_posts repo).
Proof.
  intros H. apply PreviewPage_getStaticProps_inv in H.
  destruct H as (c & _ & ->). cbn [PreviewPage.nextPost PreviewPage.prevPost].
  rewrite preview_next_select, preview_prev_select.
  intros [E|E]; apply preview_neighbour_pivot in E; tauto.
Qed.

(** X4: whatever the ref of the preview session, the neighbours that the
    page with preview support returns are published documents of type
    "posts": they come from the master ref. *)
Theorem preview_neighbours_are_published_posts
    (repo : Prismic.Repository) (slug : string)
    (preview : option bool) (previewData : option PreviewPage.PreviewData)
    (r : PreviewPage.StaticProps) (n : Document) :
  PreviewPage.getStaticProps repo slug preview previewData = Fulfilled r ->
  PreviewPage.nextPost (PreviewPage.props r) = Some n
  \/ PreviewPage.prevPost (PreviewPage.props r) = Some n ->
  In n (Prismic.master repo) /\ type n = "posts"%string.
Proof.
  intros H N. apply published_posts_In.
  eapply preview_neighbour_published; eassumption.
Qed.

Lemma preview_neighbours_are_published_posts_witness :
  exists r n,
    PreviewPage.getStaticProps previewed "A" (Some true) preview_session
    = Fulfilled r
    /\ last_publication_date (PreviewPage.post (PreviewPage.props r)) = Some 15
    /\ PreviewPage.nextPost (PreviewPage.props r) = Some n
    /\ In n (Prismic.master previewed) /\ type n = "posts"%string.
Proof.
  eexists. eexists. split; [reflexivity|]. split; [reflexivity|].
  split; [reflexivity|].
  apply (preview_neighbours_are_published_posts previewed "A" (Some true)
           preview_session _ _ eq_refl).
  left. reflexivity.
Defined.

Lemma date_leb_not_lt (a b : option timestamp) :
  Prismic.date_leb a b = true -> ~ date_lt b a.
Proof.
  destruct a as [x|], b as [y|]; simpl; auto.
  rewrite Z.leb_le. lia.
Qed.

(** X5: with unique document ids and no preview session, the neighbours
    of the page with preview support are adjacent to the post in the
    order of first publication: [nextPost] is not earlier than the post
    and no published post lies strictly between the two, and [prevPost]
    is not later than the post with no published post strictly between. *)
Theorem preview_neighbours_are_adjacent
    (repo : Prismic.Repository) (slug : string) (preview : option bool)
    (r : PreviewPage.StaticProps) :
  NoDup (map id (Prismic.master repo)) ->
  PreviewPage.getStaticProps repo slug preview None = Fulfilled r ->
  let p := PreviewPage.post (PreviewPage.props r) in
  (forall n,
      PreviewPage.nextPost (PreviewPage.props r) = Some n ->
      ~ date_lt (first_publication_date n) (first_publication_date p)
      /\ forall d, In d (published_posts repo) ->
                   ~ (date_lt (first_publication_date p) (first_publication_date d)
                      /\ date_lt (first_publication_date d) (first_publication_date n)))
  /\ (forall m,
      PreviewPage.prevPost (PreviewPage.props r) = Some m ->
      ~ date_lt (first_publication_date p) (first_publication_date m)
      /\ forall d, In d (published_posts repo) ->
                   ~ (date_lt (first_publication_date m) (first_publication_date d)
                      /\ date_lt (first_publication_date d) (first_publication_date p))).
Proof.
  intros N H. apply PreviewPage_getStaticProps_inv in H.
  destruct H as (c & E & ->).
  cbn zeta. cbn [PreviewPage.post PreviewPage.nextPost PreviewPage.prevPost].
  apply resolve_some in E. destruct E as (Hc & Ht & _). simpl in Hc.
  assert (Hp : In c (published_posts repo)) by (apply published_posts_In; auto).
  assert (Np : NoDup (map id (published_posts repo)))
    by (unfold published_posts; now apply NoDup_map_filter).
  rewrite preview_next_select, preview_prev_select.
  split; intros n En.
  - apply following_hd_adjacent with (leb := Prismic.precedes ascending) in En;
      try (apply precedes_total || apply precedes_trans
           || (apply sort_sorted; [apply precedes_total | apply precedes_trans])).
    destruct En as (c' & Hc' & Hi & Hr & Hall).
    apply In_sort in Hc'.
    assert (c' = c) as -> by (apply (NoDup_map_inj id (published_posts repo)); auto).
    unfold Prismic.precedes in Hr. simpl in Hr.
    split; [now apply date_leb_not_lt|].
    intros d Hd [L1 L2]. apply (In_sort (Prismic.precedes ascending)) in Hd.
    destruct (Hall d Hd) as [L|L]; unfold Prismic.precedes in L; simpl in L;
      apply date_leb_not_lt in L; auto.
  - apply following_hd_adjacent with (leb := Prismic.precedes descending) in En;
      try (apply precedes_total || apply precedes_trans
           || (apply sort_sorted; [apply precedes_total | apply precedes_trans])).
    destruct En as (c' & Hc' & Hi & Hr & Hall).
    apply In_sort in Hc'.
    assert (c' = c) as -> by (apply (NoDup_map_inj id (published_posts repo)); auto).
    unfold Prismic.precedes in Hr. simpl in Hr.
    split; [now apply date_leb_not_lt|].
    intros d Hd [L1 L2]. apply (In_sort (Prismic.precedes descending)) in Hd.
    destruct (Hall d Hd) as [L|L]; unfold Prismic.precedes in L; simpl in L;
      apply date_leb_not_lt in L; auto.
Qed.

Lemma preview_neighbours_are_adjacent_witness :
  exists r n,
    PreviewPage.getStaticProps timeline "A" None None = Fulfilled r
    /\ PreviewPage.nextPost (PreviewPage.props r) = Some n
    /\ ~ date_lt (first_publication_date n)
                 (first_publication_date (PreviewPage.post (PreviewPage.props r))).
Proof.
  eexists. eexists. split; [reflexivity|]. split; [reflexivity|].
  apply (proj1 (preview_neighbours_are_adjacent timeline "A" None _
                  timeline_ids eq_refl) _ eq_refl).
Defined.

Lemma getStaticPaths_first_post (repo : Prismic.Repository) :
  PostPaths.getStaticPaths repo
  = Fulfilled
      {| PostPaths.paths :=
           map (fun post =>
                  {| PostPaths.params := {| PostPaths.slug := uid post |} |})
               (firstn 1 (published_posts repo));
         PostPaths.fallback := true |}.
Proof. reflexivity. Qed.

(** X6: [getStaticPaths] is always fulfilled, asks to fall back for the
    paths it leaves out, and generates at most one path; it generates
    none exactly when the master ref holds no post.  The slug of a
    generated path is the uid of a published post, and the assembly of
    the page with preview support for that slug is fulfilled. *)
Theorem static_paths_name_a_published_post (repo : Prismic.Repository) :
  exists sp,
    PostPaths.getStaticPaths repo = Fulfilled sp
    /\ PostPaths.fallback sp = true
    /\ (List.length (PostPaths.paths sp) <= 1)%nat
    /\ (PostPaths.paths sp = [] <-> published_posts repo = [])
    /\ forall p, In p (PostPaths.paths sp) ->
         (exists d, In d (Prismic.master repo) /\ type d = "posts"%string
                    /\ uid d = PostPaths.slug (PostPaths.params p))
         /\ forall preview, exists r,
              PreviewPage.getStaticProps repo
                (PostPaths.slug (PostPaths.params p)) preview None
              = Fulfilled r.
Proof.
  rewrite getStaticPaths_first_post.
  eexists. split; [reflexivity|].
  cbn [PostPaths.fallback PostPaths.paths]. split; [reflexivity|].
  assert (Hall : forall d, In d (published_posts repo) ->
                           In d (Prismic.master repo) /\ type d = "posts"%string)
    by (intros d; apply published_posts_In).
  destruct (published_posts repo) as [|x l]; cbn.
  - split; [lia|]. split; [tauto|]. intros p [].
  - split; [lia|]. split; [split; discriminate|].
    intros p [<-|[]]. cbn.
    destruct (Hall x (or_introl eq_refl)) as (Hin & Ht).
    split; [exists x; auto|].
    intros preview.
    destruct (resolve_exists repo (uid x) None x Hin Ht eq_refl) as (c & E).
    destruct (PreviewPage_fulfilled repo (uid x) preview None c E) as (r & H & _).
    now exists r.
Qed.

(** X7: on the page without preview support, in a repository whose
    documents are all dated posts with pairwise different first
    publication dates and pairwise different uids, navigation is
    consistent: assembling the page of [nextPost] gives that post with
    the starting post as its [prevPost], and assembling the page of
    [prevPost] gives it with the starting post as its [nextPost]. *)
Theorem plain_navigation_round_trip
    (repo : Prismic.Repository) (slug : string) (r : PlainPage.StaticProps) :
  all_dated_posts repo -> distinct_dates repo -> unique_uids repo ->
  PlainPage.getStaticProps repo slug = Fulfilled r ->
  (forall n,
      PlainPage.nextPost (PlainPage.props r) = Some n ->
      exists r',
        PlainPage.getStaticProps repo (uid n) = Fulfilled r'
        /\ PlainPage.post (PlainPage.props r') = n
        /\ PlainPage.prevPost (PlainPage.props r')
           = Some (PlainPage.post (PlainPage.props r)))
  /\ (forall m,
      PlainPage.prevPost (PlainPage.props r) = Some m ->
      exists r',
        PlainPage.getStaticProps repo (uid m) = Fulfilled r'
        /\ PlainPage.post (PlainPage.props r') = m
        /\ PlainPage.nextPost (PlainPage.props r')
           = Some (PlainPage.post (PlainPage.props r))).
Proof.
  intros Posts Distinct Uids H.
  apply PlainPage_getStaticProps_inv in H.
  destruct H as (c & nq & pq & E & Hn & Hp & ->).
  destruct (plain_queries _ _ _ Hn Hp) as (t & Ht & En & Ep).
  apply resolve_some in E. destruct E as (Hc & _ & _). simpl in Hc.
  assert (Pub : forall d, In d (Prismic.master repo) -> In d (published_posts repo)).
  { intros d Hd. apply published_posts_In. split; [exact Hd|].
    now destruct (Posts d Hd). }
  cbn [PlainPage.post PlainPage.nextPost PlainPage.prevPost].
  rewrite En, Ep. split.
  - intros n E.
    pose proof (first_later_is_nearest repo t) as Near. rewrite E in Near.
    destruct Near as (Hin & v & Hv & Hlt & Hmin).
    destruct (Posts n Hin) as [Tn _].
    pose proof (resolve_own_uid repo n Uids Hin Tn) as R.
    destruct (PlainPage_fulfilled repo (uid n) n v R Hv) as (r' & H' & P').
    exists r'. split; [exact H'|]. rewrite P'.
    cbn [PlainPage.post PlainPage.nextPost PlainPage.prevPost].
    split; [reflexivity|].
    pose proof (first_earlier_is_nearest repo v) as Back.
    destruct (hd_error (Prismic.sort (Prismic.precedes descending)
                          (filter (earlier_than v) (Prismic.master repo))))
      as [m|].
    + destruct Back as (Hm & u & Hu & Hlt' & Hmax).
      f_equal. apply Distinct; auto. rewrite Hu, Ht. f_equal.
      pose proof (Hmax c t Hc Ht Hlt).
      destruct (Z.lt_ge_cases t u) as [L|L]; [|lia].
      pose proof (Hmin m u Hm Hu L). lia.
    + pose proof (Back c t Hc Ht). lia.
  - intros m E.
    pose proof (first_earlier_is_nearest repo t) as Near. rewrite E in Near.
    destruct Near as (Hin & v & Hv & Hlt & Hmax).
    destruct (Posts m Hin) as [Tm _].
    pose proof (resolve_own_uid repo m Uids Hin Tm) as R.
    destruct (PlainPage_fulfilled repo (uid m) m v R Hv) as (r' & H' & P').
    exists r'. split; [exact H'|]. rewrite P'.
    cbn [PlainPage.post PlainPage.nextPost PlainPage.prevPost].
    split; [reflexivity|].
    pose proof (first_later_is_nearest repo v) as Forth.
    destruct (hd_error (Prismic.sort (Prismic.precedes ascending)
                          (filter (later_than v) (Prismic.master repo))))
      as [n|].
    + destruct Forth as (Hn' & u & Hu & Hlt' & Hmin).
      f_equal. apply Distinct; auto. rewrite Hu, Ht. f_equal.
      pose proof (Hmin c t Hc Ht Hlt).
      destruct (Z.lt_ge_cases u t) as [L|L]; [|lia].
      pose proof (Hmax n u Hn' Hu L). lia.
    + pose proof (Forth c t Hc Ht). lia.
Qed.

Lemma timeline_unique_uids : unique_uids timeline.
Proof.
  unfold unique_uids. simpl. repeat constructor; simpl; intuition discriminate.
Qed.

Lemma plain_navigation_round_trip_witness :
  exists r',
    PlainPage.getStaticProps timeline "C" = Fulfilled r'
    /\ PlainPage.post (PlainPage.props r') = sample_post "C" 30 31
    /\ PlainPage.prevPost (PlainPage.props r') = Some (sample_post "B" 20 20).
Proof.
  exact (proj1 (plain_navigation_round_trip timeline "B" _
                  timeline_all_dated_posts timeline_distinct_dates
                  timeline_unique_uids eq_refl)
               (sample_post "C" 30 31) eq_refl).
Defined.

(** X8: the links to the neighbours lead somewhere on the page with
    preview support: for the uid of a returned [nextPost] or [prevPost]
    the assembly, without preview session, is fulfilled with a post of
    that uid. *)
Theorem preview_neighbours_can_be_assembled
    (repo : Prismic.Repository) (slug : string)
    (preview preview' : option bool)
    (previewData : option PreviewPage.PreviewData)
    (r : PreviewPage.StaticProps) (n : Document) :
  PreviewPage.getStaticProps repo slug preview previewData = Fulfilled r ->
  PreviewPage.nextPost (PreviewPage.props r) = Some n
  \/ PreviewPage.prevPost (PreviewPage.props r) = Some n ->
  exists r',
    PreviewPage.getStaticProps repo (uid n) preview' None = Fulfilled r'
    /\ uid (PreviewPage.post (PreviewPage.props r')) = uid n
    /\ type (PreviewPage.post (PreviewPage.props r')) = "posts"%string.
Proof.
  intros H N.
  pose proof (preview_neighbour_published _ _ _ _ _ _ H N) as Hp.
  apply published_posts_In in Hp. destruct Hp as (Hin & Ht).
  destruct (resolve_exists repo (uid n) None n Hin Ht eq_refl) as (c & E).
  destruct (PreviewPage_fulfilled repo (uid n) preview' None c E)
    as (r' & H' & P').
  exists r'. split; [exact H'|]. rewrite P'.
  apply resolve_some in E. tauto.
Qed.

Lemma preview_neighbours_can_be_assembled_witness :
  exists r',
    PreviewPage.getStaticProps blog "B" None None = Fulfilled r'
    /\ uid (PreviewPage.post (PreviewPage.props r')) = "B"%string
    /\ type (PreviewPage.post (PreviewPage.props r')) = "posts"%string.
Proof.
  exact (preview_neighbours_can_be_assembled blog "A" None None None
           _ (sample_post "B" 10 10) eq_refl (or_introl eq_refl)).
Defined.

(* ================================================================== *)
(** * The ends of the timeline, on both pages *)

(** C6, as stated, fails on the page with preview support: in a
    repository of two posts A and B with the same first publication date
    and different ids, A has both the latest and the earliest first
    publication date among all documents, and the page assembles B as
    [nextPost] and as [prevPost]. *)
Lemma preview_page_neighbour_of_tied_end :
  NoDup (map id (Prismic.master tied_pair))
  /\ exists r n,
       PreviewPage.getStaticProps tied_pair "A" None None = Fulfilled r
       /\ (forall d t t0,
              In d (Prismic.master tied_pair) ->
              first_publication_date d = Some t ->
              first_publication_date (PreviewPage.post (PreviewPage.props r))
              = Some t0 -> t <= t0)
       /\ (forall d t t0,
              In d (Prismic.master tied_pair) ->
              first_publication_date d = Some t ->
              first_publication_date (PreviewPage.post (PreviewPage.props r))
              = Some t0 -> t0 <= t)
       /\ PreviewPage.nextPost (PreviewPage.props r) = Some n
       /\ PreviewPage.prevPost (PreviewPage.props r) = Some n.
Proof.
  split.
  - simpl. repeat constructor; simpl; intuition discriminate.
  - eexists. eexists. split; [reflexivity|].
    split; [|split; [|split; reflexivity]].
    + intros d t t0 Hd. simpl in Hd.
      destruct Hd as [<-|[<-|[]]]; simpl; intros [= <-] [= <-]; lia.
    + intros d t t0 Hd. simpl in Hd.
      destruct Hd as [<-|[<-|[]]]; simpl; intros [= <-] [= <-]; lia.
Qed.

(** C6, amended: on the page without preview support, when no document
    of the repository has a first publication date later than that of
    the fetched post, [nextPost] is [null], and when none has an earlier
    one, [prevPost] is [null].  On the page with preview support, with
    unique document ids and no preview session, when every other
    published post has a first publication date strictly before that of
    the fetched post, [nextPost] is [null], and when every other one has
    a date strictly after it, [prevPost] is [null]. *)
Theorem no_neighbour_at_the_ends_of_the_timeline
    (repo : Prismic.Repository) (slug : string) (preview : option bool) :
  (forall r,
      PlainPage.getStaticProps repo slug = Fulfilled r ->
      let p := PlainPage.props r in
      ((forall d t t0,
           In d (Prismic.master repo) ->
           first_publication_date d = Some t ->
           first_publication_date (PlainPage.post p) = Some t0 -> t <= t0) ->
       PlainPage.nextPost p = None)
      /\ ((forall d t t0,
           In d (Prismic.master repo) ->
           first_publication_date d = Some t ->
           first_publication_date (PlainPage.post p) = Some t0 -> t0 <= t) ->
          PlainPage.prevPost p = None))
  /\ (forall r,
      PreviewPage.getStaticProps repo slug preview None = Fulfilled r ->
      NoDup (map id (Prismic.master repo)) ->
      let p := PreviewPage.props r in
      ((forall d,
           In d (published_posts repo) -> d <> PreviewPage.post p ->
           date_lt (first_publication_date d)
                   (first_publication_date (PreviewPage.post p))) ->
       PreviewPage.nextPost p = None)
      /\ ((forall d,
           In d (published_posts repo) -> d <> PreviewPage.post p ->
           date_lt (first_publication_date (PreviewPage.post p))
                   (first_publication_date d)) ->
          PreviewPage.prevPost p = None)).
Proof.
  split.
  - intros r H. exact (plain_no_neighbour_at_the_ends repo slug r H).
  - intros r H N. apply PreviewPage_getStaticProps_inv in H.
    destruct H as (c & E & ->).
    cbn zeta. cbn [PreviewPage.post PreviewPage.nextPost PreviewPage.prevPost].
    apply resolve_some in E. destruct E as (Hc & Ht & _). simpl in Hc.
    assert (Hp : In c (published_posts repo)) by (apply published_posts_In; auto).
    assert (Np : NoDup (map id (published_posts repo)))
      by (unfold published_posts; now apply NoDup_map_filter).
    rewrite preview_next_select, preview_prev_select.
    split; intros L.
    + destruct (hd_error _) as [n|] eqn:En; [exfalso|reflexivity].
      pose proof (preview_neighbour_other_id _ _ _ _ N En) as Hid.
      apply preview_neighbour_pivot in En.
      destruct En as (Hn & c' & Hc' & Hi & Hr).
      assert (c' = c) as ->
        by (apply (NoDup_map_inj id (published_posts repo)); auto).
      unfold Prismic.precedes in Hr. simpl in Hr.
      apply date_leb_not_lt in Hr. apply Hr, L; [exact Hn | congruence].
    + destruct (hd_error _) as [m|] eqn:Em; [exfalso|reflexivity].
      pose proof (preview_neighbour_other_id _ _ _ _ N Em) as Hid.
      apply preview_neighbour_pivot in Em.
      destruct Em as (Hm & c' & Hc' & Hi & Hr).
      assert (c' = c) as ->
        by (apply (NoDup_map_inj id (published_posts repo)); auto).
      unfold Prismic.precedes in Hr. simpl in Hr.
      apply date_leb_not_lt in Hr. apply Hr, L; [exact Hm | congruence].
Qed.

Lemma no_neighbour_at_the_ends_of_the_timeline_witness :
  (exists r, PlainPage.getStaticProps timeline "C" = Fulfilled r
             /\ PlainPage.nextPost (PlainPage.props r) = None)
  /\ (exists r, PlainPage.getStaticProps timeline "A" = Fulfilled r
                /\ PlainPage.prevPost (PlainPage.props r) = None)
  /\ (exists r, PreviewPage.getStaticProps timeline "C" None None = Fulfilled r
                /\ PreviewPage.nextPost (PreviewPage.props r) = None)
  /\ (exists r, PreviewPage.getStaticProps timeline "A" None None = Fulfilled r
                /\ PreviewPage.prevPost (PreviewPage.props r) = None).
Proof.
  split; [|split; [|split]]; eexists; (split; [reflexivity|]).
  - apply (proj1 (proj1 (no_neighbour_at_the_ends_of_the_timeline
                           timeline "C" None) _ eq_refl)).
    intros d t t0 Hd. simpl in Hd.
    destruct Hd as [<-|[<-|[<-|[]]]]; simpl; intros [= <-] [= <-]; lia.
  - apply (proj2 (proj1 (no_neighbour_at_the_ends_of_the_timeline
                           timeline "A" None) _ eq_refl)).
    intros d t t0 Hd. simpl in Hd.
    destruct Hd as [<-|[<-|[<-|[]]]]; simpl; intros [= <-] [= <-]; lia.
  - apply (proj1 (proj2 (no_neighbour_at_the_ends_of_the_timeline
                           timeline "C" None) _ eq_refl timeline_ids)).
    intros d Hd Ne. simpl in Hd.
    destruct Hd as [<-|[<-|[<-|[]]]]; simpl; try lia.
    now destruct Ne.
  - apply (proj2 (proj2 (no_neighbour_at_the_ends_of_the_timeline
                           timeline "A" None) _ eq_refl timeline_ids)).
    intros d Hd Ne. simpl in Hd.
    destruct Hd as [<-|[<-|[<-|[]]]]; simpl; try lia.
    now destruct Ne.
Defined.
